(** * The travel-planning workflow of [src/workflow.py]

    A shallow embedding of the stage functions and of the routing graph that
    [src/workflow.py] builds, followed by the properties of the run loop.

    Conventions of the model.
    - A text is kept as the bytes of its UTF-8 encoding, in a [string].  The
      pattern of the summary stage is read character by character: [\w]
      is the class [A-Za-z0-9_] and, above ASCII, what the Unicode database
      of the interpreter calls alphanumeric; that database is the field
      [unicode_word] of the [Services] record.
    - A Python exception is a value of [exn]; code that may raise returns a
      [result].
    - The external collaborators (the agents built by [create_react_agent],
      [query_analyzer], [itinerary_builder], [summary_generator], and the
      JSON/pydantic decoding of the hotel list) are fields of a [Services]
      record.  Every call takes the index of the stage execution that makes
      it, so a collaborator may answer differently each time it is asked. *)

From Stdlib Require Import ZArith String Ascii List Lia.
From stdpp Require Import base tactics option list strings gmap.

Local Open Scope string_scope.

(** ** Exceptions and results *)

(** The exceptions the source names or meets.  [RecursionError] is what
    [json.loads] raises on input that is nested too deep,
    [GraphRecursionError] what the graph library raises when a run has used
    up its recursion limit; [CollaboratorError] stands for any other
    exception of a collaborator. *)
Inductive exn : Type :=
| ValueError (msg : string)
| KeyError (key : string)
| IndexError
| TypeError
| JSONDecodeError
| ValidationError
| RecursionError
| GraphRecursionError
| CollaboratorError (msg : string).

Inductive result (A : Type) : Type :=
| Ok (a : A)
| Raise (e : exn).

Arguments Ok {A} a.
Arguments Raise {A} e.

#[global] Instance result_ret : MRet result := fun A a => Ok a.

#[global] Instance result_bind : MBind result := fun A B k r =>
  match r with
  | Ok a => k a
  | Raise e => Raise e
  end.

(** ** Text primitives used by the summary stage *)

Module Re.

(** [\w] in a [str] pattern: the class [A-Za-z0-9_] and, above ASCII, every
    code point that the Unicode database of the interpreter calls
    alphanumeric.  [alnum] is that database. *)
Definition is_word (alnum : N -> bool) (cp : N) : bool :=
  if (cp <? 128)%N
  then ((48 <=? cp) && (cp <=? 57) || (65 <=? cp) && (cp <=? 90)
        || (97 <=? cp) && (cp <=? 122) || (cp =? 95))%N
  else alnum cp.

(** A byte [10xxxxxx]: it continues a character and carries six bits. *)
Definition continuation (c : ascii) : bool :=
  ((128 <=? N_of_ascii c) && (N_of_ascii c <? 192))%N.

Definition payload (c : ascii) : N := (N_of_ascii c - 128)%N.

(** The character at the start of [s]: its code point and the number of
    bytes that encode it.  [None] at the end of the text and on bytes that
    start no character. *)
Definition decode (s : string) : option (N * nat) :=
  match s with
  | EmptyString => None
  | String a s1 =>
      let b := N_of_ascii a in
      if (b <? 128)%N then Some (b, 1)
      else if (b <? 192)%N then None
      else if (b <? 224)%N then
        match s1 with
        | String c1 _ =>
            if continuation c1
            then Some (((b - 192) * 64 + payload c1)%N, 2)
            else None
        | _ => None
        end
      else if (b <? 240)%N then
        match s1 with
        | String c1 (String c2 _) =>
            if continuation c1 && continuation c2
            then Some (((b - 224) * 4096 + payload c1 * 64 + payload c2)%N, 3)
            else None
        | _ => None
        end
      else if (b <? 248)%N then
        match s1 with
        | String c1 (String c2 (String c3 _)) =>
            if continuation c1 && continuation c2 && continuation c3
            then Some (((b - 240) * 262144 + payload c1 * 4096
                        + payload c2 * 64 + payload c3)%N, 4)
            else None
        | _ => None
        end
      else None
  end.

Fixpoint drop (n : nat) (s : string) : string :=
  match n, s with
  | S n', String _ s' => drop n' s'
  | _, _ => s
  end.

Fixpoint take (n : nat) (s : string) : string :=
  match n, s with
  | S n', String c s' => String c (take n' s')
  | _, _ => EmptyString
  end.

(** Number of bytes of the longest prefix made of word characters, read in
    at most [fuel] characters. *)
Fixpoint word_run_upto (alnum : N -> bool) (fuel : nat) (s : string) : nat :=
  match fuel with
  | 0 => 0
  | S fuel' =>
      match decode s with
      | Some (cp, n) =>
          if is_word alnum cp
          then n + word_run_upto alnum fuel' (drop n s)
          else 0
      | None => 0
      end
  end.

(** A character takes at least one byte, so [s] has no more characters than
    bytes. *)
Definition word_run (alnum : N -> bool) (s : string) : nat :=
  word_run_upto alnum (String.length s) s.

(** [s] is made of word characters. *)
Definition all_word (alnum : N -> bool) (s : string) : bool :=
  Nat.eqb (word_run alnum s) (String.length s).

(** The group [(\w+_agent)]: [\w+] is greedy, so it first takes the whole run
    of word characters and gives characters back one at a time until
    [_agent] follows; it keeps at least one character.  [_] is a byte of
    ASCII, which is never part of a longer character, so it is enough to look
    for [_agent] byte by byte. *)
Fixpoint backtrack (s : string) (k : nat) : option string :=
  match k with
  | 0 => None
  | S k' =>
      if String.prefix "_agent" (drop k s) then Some (take (k + 6) s)
      else backtrack s k'
  end.

(** [regenerate:(\w+_agent)] anchored at the start of [s]; the result is
    group 1. *)
Definition match_at (alnum : N -> bool) (s : string) : option string :=
  if String.prefix "regenerate:" s
  then let r := drop 11 s in backtrack r (word_run alnum r)
  else None.

(** [re.search(r'regenerate:(\w+_agent)', s)]: the leftmost position at which
    the pattern matches; [None] when there is none.  A match starts with the
    ASCII byte [r], hence at the start of a character. *)
Fixpoint search (alnum : N -> bool) (s : string) : option string :=
  match match_at alnum s with
  | Some g => Some g
  | None =>
      match s with
      | String _ s' => search alnum s'
      | EmptyString => None
      end
  end.

End Re.

Definition lower_char (c : ascii) : ascii :=
  let n := nat_of_ascii c in
  if Nat.leb 65 n && Nat.leb n 90 then ascii_of_nat (n + 32) else c.

(** [str.lower], on the letters [A-Z].  The source calls it for one test
    only, and returns the same [Command] on either side of the test. *)
Fixpoint lower (s : string) : string :=
  match s with
  | String c s' => String (lower_char c) (lower s')
  | EmptyString => EmptyString
  end.

(** [needle in hay] *)
Fixpoint contains (needle hay : string) : bool :=
  String.prefix needle hay ||
  match hay with
  | String _ hay' => contains needle hay'
  | EmptyString => false
  end.

(** ** Data model *)

Section Model.

(** The numeric type of prices and budgets and the class of the itinerary are
    declared in [models.py]; the workflow only passes their values along. *)
Context {Float TripPlan : Type}.

Record Message : Type := { content : string }.

(** Modelled from the spec: [HotelInfo] is declared in [models.py]; its five
    fields are those of the lodging entry of the data model (name, nightly
    price, review count, rating, reference link), under the keys the hotel
    agent is told to produce. *)
Record HotelInfo : Type := {
  name : string;
  price_per_night : Float;
  review_count : Z;
  rating : Float;
  url : string
}.

(** Modelled from the spec: [QueryAnalysisResult] is declared in [models.py];
    its fields are the trip parameters of the data model, under the names the
    source gives them when it builds the initial state. *)
Record QueryAnalysisResult : Type := {
  qa_destination : option string;
  qa_budget : option Float;
  qa_native_currency : option string;
  qa_days : option Z;
  qa_group_size : option Z;
  qa_activity_preferences : option (list string);
  qa_accommodation_type : option string;
  qa_dietary_restrictions : option (list string);
  qa_transportation_preferences : option (list string)
}.

(** What a dict holds under a key: a [str], or an object of another type
    ([None], a number, a list, ...). *)
Inductive DictValue : Type :=
| Str (s : string)
| NotStr.

(** What [summary_generator.generate_summary] returns, when it is not
    [None]: a dict, or an object of another type, of which the source takes
    the [str()]. *)
Inductive SummaryValue : Type :=
| SummaryDict (d : gmap string DictValue)
| SummaryOther (str : string).

(** Modelled from the spec: [WorkflowState] is declared in [models.py]; the
    fields are the attributes the source reads and assigns.  [None] is the
    unset value. *)
Record WorkflowState : Type := {
  messages : list Message;
  destination : option string;
  budget : option Float;
  native_currency : option string;
  days : option Z;
  group_size : option Z;
  activity_preferences : option (list string);
  accommodation_type : option string;
  dietary_restrictions : option (list string);
  transportation_preferences : option (list string);
  hotels : option (list HotelInfo);
  weather : option string;
  attractions : option string;
  calculator_result : option string;
  itinerary : option TripPlan;
  summary : option SummaryValue
}.

(** [state.attractions or []] *)
Inductive TextOrEmptyList : Type :=
| Text (s : string)
| EmptyList.

Definition or_empty_list (a : option string) : TextOrEmptyList :=
  match a with
  | Some s => if String.eqb s "" then EmptyList else Text s
  | None => EmptyList
  end.

(** The dict handed to [generate_summary]. *)
Record SummaryInput : Type := {
  arg_messages : list Message;
  arg_destination : option string;
  arg_days : option Z;
  arg_attractions : TextOrEmptyList;
  arg_hotel_info : option (list HotelInfo);
  arg_weather : option string;
  arg_itinerary : option TripPlan;
  arg_calculator_result : option string
}.

(** [Command(goto=..., update=...)] *)
Record Command : Type := { goto : string; update : WorkflowState }.

(** The collaborators and the tables of the interpreter.  The first argument
    of a call is the index of the stage execution that makes it. *)
Record Services : Type := {
  travel_evaluator_invoke : nat -> string -> result string;
  query_analyzer_analyze : nat -> string -> result QueryAnalysisResult;
  hotel_agent_invoke : nat -> WorkflowState -> result string;
  (* json.loads(raw_content), then one HotelInfo per decoded entry *)
  parse_hotels : string -> result (list HotelInfo);
  weather_agent_invoke : nat -> list Message -> result string;
  attractions_agent_invoke : nat -> WorkflowState -> result string;
  calculator_agent_invoke : nat -> WorkflowState -> result string;
  itinerary_builder_build : nat -> WorkflowState -> result TripPlan;
  (* the answer may be None *)
  generate_summary : nat -> SummaryInput -> result (option SummaryValue);
  (* str.isalnum of a code point above ASCII, which is what \w asks there *)
  unicode_word : N -> bool
}.

Variable svc : Services.

(** ** Field assignments [state.f = v] *)

Definition set_hotels (state : WorkflowState) (v : option (list HotelInfo))
  : WorkflowState :=
  {| messages := messages state; destination := destination state;
     budget := budget state; native_currency := native_currency state;
     days := days state; group_size := group_size state;
     activity_preferences := activity_preferences state;
     accommodation_type := accommodation_type state;
     dietary_restrictions := dietary_restrictions state;
     transportation_preferences := transportation_preferences state;
     hotels := v; weather := weather state; attractions := attractions state;
     calculator_result := calculator_result state;
     itinerary := itinerary state; summary := summary state |}.

Definition set_weather (state : WorkflowState) (v : option string)
  : WorkflowState :=
  {| messages := messages state; destination := destination state;
     budget := budget state; native_currency := native_currency state;
     days := days state; group_size := group_size state;
     activity_preferences := activity_preferences state;
     accommodation_type := accommodation_type state;
     dietary_restrictions := dietary_restrictions state;
     transportation_preferences := transportation_preferences state;
     hotels := hotels state; weather := v; attractions := attractions state;
     calculator_result := calculator_result state;
     itinerary := itinerary state; summary := summary state |}.

Definition set_attractions (state : WorkflowState) (v : option string)
  : WorkflowState :=
  {| messages := messages state; destination := destination state;
     budget := budget state; native_currency := native_currency state;
     days := days state; group_size := group_size state;
     activity_preferences := activity_preferences state;
     accommodation_type := accommodation_type state;
     dietary_restrictions := dietary_restrictions state;
     transportation_preferences := transportation_preferences state;
     hotels := hotels state; weather := weather state; attractions := v;
     calculator_result := calculator_result state;
     itinerary := itinerary state; summary := summary state |}.

Definition set_calculator_result (state : WorkflowState) (v : option string)
  : WorkflowState :=
  {| messages := messages state; destination := destination state;
     budget := budget state; native_currency := native_currency state;
     days := days state; group_size := group_size state;
     activity_preferences := activity_preferences state;
     accommodation_type := accommodation_type state;
     dietary_restrictions := dietary_restrictions state;
     transportation_preferences := transportation_preferences state;
     hotels := hotels state; weather := weather state;
     attractions := attractions state; calculator_result := v;
     itinerary := itinerary state; summary := summary state |}.

Definition set_itinerary (state : WorkflowState) (v : option TripPlan)
  : WorkflowState :=
  {| messages := messages state; destination := destination state;
     budget := budget state; native_currency := native_currency state;
     days := days state; group_size := group_size state;
     activity_preferences := activity_preferences state;
     accommodation_type := accommodation_type state;
     dietary_restrictions := dietary_restrictions state;
     transportation_preferences := transportation_preferences state;
     hotels := hotels state; weather := weather state;
     attractions := attractions state;
     calculator_result := calculator_result state;
     itinerary := v; summary := summary state |}.

Definition set_summary (state : WorkflowState) (v : option SummaryValue)
  : WorkflowState :=
  {| messages := messages state; destination := destination state;
     budget := budget state; native_currency := native_currency state;
     days := days state; group_size := group_size state;
     activity_preferences := activity_preferences state;
     accommodation_type := accommodation_type state;
     dietary_restrictions := dietary_restrictions state;
     transportation_preferences := transportation_preferences state;
     hotels := hotels state; weather := weather state;
     attractions := attractions state;
     calculator_result := calculator_result state;
     itinerary := itinerary state; summary := v |}.

(** [for k, v in result.model_dump().items(): setattr(state, k, v)] *)
Definition merge_analysis (state : WorkflowState) (r : QueryAnalysisResult)
  : WorkflowState :=
  {| messages := messages state; destination := qa_destination r;
     budget := qa_budget r; native_currency := qa_native_currency r;
     days := qa_days r; group_size := qa_group_size r;
     activity_preferences := qa_activity_preferences r;
     accommodation_type := qa_accommodation_type r;
     dietary_restrictions := qa_dietary_restrictions r;
     transportation_preferences := qa_transportation_preferences r;
     hotels := hotels state; weather := weather state;
     attractions := attractions state;
     calculator_result := calculator_result state;
     itinerary := itinerary state; summary := summary state |}.

(** ** Stage functions *)

Definition START : string := "__start__".
Definition END : string := "__end__".

(** [state.messages[-1]] *)
Definition last_message (state : WorkflowState) : result Message :=
  match last (messages state) with
  | Some m => Ok m
  | None => Raise IndexError
  end.

(** [TravelEvaluationResult(result=response)], a pydantic model whose field
    is [Literal["TRAVEL", "NOT_TRAVEL"]]. *)
Definition TravelEvaluationResult (response : string) : result unit :=
  if String.eqb response "TRAVEL" || String.eqb response "NOT_TRAVEL"
  then Ok tt else Raise ValidationError.

Definition router_travel_evaluator (tick : nat) (state : WorkflowState)
  : result string :=
  user_msg ← last_message state;
  response ← travel_evaluator_invoke svc tick (content user_msg);
  match TravelEvaluationResult response with
  | Ok _ => Ok response
  | Raise ValidationError =>
      Raise (ValueError ("Invalid travel evaluator output: " ++ response))
  | Raise e => Raise e
  end.

Definition node_query_analyzer (tick : nat) (state : WorkflowState)
  : result Command :=
  user_msg ← last_message state;
  r ← query_analyzer_analyze svc tick (content user_msg);
  Ok {| goto := "hotel_agent"; update := merge_analysis state r |}.

(** The clause [except (json.JSONDecodeError, ValidationError, TypeError)]. *)
Definition hotel_except (e : exn) : bool :=
  match e with
  | JSONDecodeError | ValidationError | TypeError => true
  | _ => false
  end.

Definition node_hotel_agent (tick : nat) (state : WorkflowState)
  : result Command :=
  raw_content ← hotel_agent_invoke svc tick state;
  state' ← match parse_hotels svc raw_content with
            | Ok hotels_list => Ok (set_hotels state (Some hotels_list))
            | Raise e =>
                if hotel_except e then Ok (set_hotels state (Some []))
                else Raise e
            end;
  Ok {| goto := "weather_agent"; update := state' |}.

Definition node_weather_agent (tick : nat) (state : WorkflowState)
  : result Command :=
  w ← weather_agent_invoke svc tick (messages state);
  Ok {| goto := "attractions_agent"; update := set_weather state (Some w) |}.

Definition node_attractions_agent (tick : nat) (state : WorkflowState)
  : result Command :=
  a ← attractions_agent_invoke svc tick state;
  Ok {| goto := "calculator_agent";
        update := set_attractions state (Some a) |}.

Definition node_calculator_agent (tick : nat) (state : WorkflowState)
  : result Command :=
  c ← calculator_agent_invoke svc tick state;
  Ok {| goto := "itinerary_agent";
        update := set_calculator_result state (Some c) |}.

Definition node_itinerary_agent (tick : nat) (state : WorkflowState)
  : result Command :=
  plan ← itinerary_builder_build svc tick state;
  Ok {| goto := "summary_agent"; update := set_itinerary state (Some plan) |}.

Definition summary_input (state : WorkflowState) : SummaryInput :=
  {| arg_messages := messages state;
     arg_destination := destination state;
     arg_days := days state;
     arg_attractions := or_empty_list (attractions state);
     arg_hotel_info := hotels state;
     arg_weather := weather state;
     arg_itinerary := itinerary state;
     arg_calculator_result := calculator_result state |}.

(** [summary.get('summary')] on a dict and [str(summary)] on another object,
    when that is a text.  [dict.get] gives [None] for a missing key, and
    what the dict holds under the key need not be a [str]: both are [None]
    here. *)
Definition summary_text (s : SummaryValue) : option string :=
  match s with
  | SummaryDict d =>
      match d !! "summary" with
      | Some (Str text) => Some text
      | _ => None
      end
  | SummaryOther str => Some str
  end.

(** [summary.get('summary') if isinstance(summary, dict) else str(summary)];
    [None] is no dict, and [str(None)] is ["None"]. *)
Definition content_of (s : option SummaryValue) : option string :=
  match s with
  | Some v => summary_text v
  | None => Some "None"
  end.

(** [re.search] raises [TypeError] when [content] is not a text. *)
Definition node_summary_agent (tick : nat) (state : WorkflowState)
  : result Command :=
  s ← generate_summary svc tick (summary_input state);
  let state' := set_summary state s in
  match content_of s with
  | None => Raise TypeError
  | Some content =>
      match Re.search (unicode_word svc) content with
      | Some next_agent => Ok {| goto := next_agent; update := state' |}
      | None =>
          if contains "final" (lower content)
          then Ok {| goto := END; update := state' |}
          else Ok {| goto := END; update := state' |}
      end
  end.

Definition summary_supervisor_router (tick : nat) (state : WorkflowState)
  : result string :=
  match content_of (summary state) with
  | None => Raise TypeError
  | Some content =>
      match Re.search (unicode_word svc) content with
      | Some next_agent => Ok next_agent
      | None => if contains "final" (lower content) then Ok END else Ok END
      end
  end.

(** ** The graph

    [StateGraph] keeps what [add_node], [add_edge] and
    [add_conditional_edges] register: the stage functions by name, the fixed
    edges, and for a source stage a router with the dict that maps the
    router's answer to a stage. *)

Local Abbreviation NodeFn := (nat -> WorkflowState -> result Command).
Local Abbreviation Router := (nat -> WorkflowState -> result string).

Record Branch : Type := { path : Router; path_map : gmap string string }.

Record StateGraph : Type := {
  nodes : gmap string NodeFn;
  edges : list (string * string);
  branches : list (string * Branch)
}.

Definition empty_graph : StateGraph :=
  {| nodes := ∅; edges := []; branches := [] |}.

Definition add_node (key : string) (fn : NodeFn) (g : StateGraph)
  : StateGraph :=
  {| nodes := <[key := fn]> (nodes g); edges := edges g;
     branches := branches g |}.

Definition add_edge (start_key end_key : string) (g : StateGraph)
  : StateGraph :=
  {| nodes := nodes g; edges := edges g ++ [(start_key, end_key)];
     branches := branches g |}.

Definition add_conditional_edges (source : string) (router : Router)
  (mapping : gmap string string) (g : StateGraph) : StateGraph :=
  {| nodes := nodes g; edges := edges g;
     branches := branches g ++
                 [(source, {| path := router; path_map := mapping |})] |}.

Definition travel_path_map : gmap string string :=
  {[ "TRAVEL" := "query_analyzer"; "NOT_TRAVEL" := END ]}.

Definition summary_path_map : gmap string string :=
  {[ "attractions_agent" := "attractions_agent";
     "itinerary_agent" := "itinerary_agent";
     "calculator_agent" := "calculator_agent";
     END := END ]}.

(** The calls of the source, in their order. *)
Local Notation "g |> f" := (f g) (at level 50, left associativity, only parsing).

Definition workflow : StateGraph :=
  empty_graph
  |> add_node "query_analyzer" node_query_analyzer
  |> add_node "hotel_agent" node_hotel_agent
  |> add_node "weather_agent" node_weather_agent
  |> add_node "attractions_agent" node_attractions_agent
  |> add_node "calculator_agent" node_calculator_agent
  |> add_node "itinerary_agent" node_itinerary_agent
  |> add_node "summary_agent" node_summary_agent
  |> add_conditional_edges START router_travel_evaluator travel_path_map
  |> add_edge "query_analyzer" "hotel_agent"
  |> add_edge "hotel_agent" "weather_agent"
  |> add_edge "weather_agent" "attractions_agent"
  |> add_edge "attractions_agent" "calculator_agent"
  |> add_edge "calculator_agent" "itinerary_agent"
  |> add_edge "itinerary_agent" "summary_agent"
  |> add_conditional_edges "summary_agent" summary_supervisor_router
       summary_path_map
  |> add_edge "summary_agent" END.

(** ** The run loop

    The loop that runs the compiled graph belongs to the graph library, not
    to the repository; what follows are its rules for the constructs the
    source uses.  One stage runs at a time.  After a stage has returned its
    [Command], the update replaces the state, and the stages to run next are
    collected from three places: the [goto] of the [Command], the answers of
    the routers registered for the stage, each looked up in the dict that
    was registered with it (a missing key is a [KeyError], as for any dict),
    and the fixed edges that leave the stage.  A [goto] adds to the edges,
    it does not replace them.  [END] is not a stage and is dropped.  When no
    stage is left the run ends; one stage continues it.  The loop counts its
    steps and gives up when the caller's [recursion_limit] is used up; that
    part comes last, in [app_invoke]. *)

Fixpoint branch_targets (bs : list (string * Branch)) (source : string)
  (tick : nat) (state : WorkflowState) : result (list string) :=
  match bs with
  | [] => Ok []
  | (s, b) :: bs' =>
      if String.eqb s source then
        answer ← path b tick state;
        target ← match path_map b !! answer with
                  | Some t => Ok t
                  | None => Raise (KeyError answer)
                  end;
        targets ← branch_targets bs' source tick state;
        Ok (target :: targets)
      else branch_targets bs' source tick state
  end.

Definition static_targets (es : list (string * string)) (source : string)
  : list string :=
  map snd (filter (fun e => e.1 = source) es).

Inductive Step : Type :=
| Stop (state : WorkflowState)
| Goto (next : string) (state : WorkflowState)
| Fanout (targets : list string) (state : WorkflowState)
| Throw (e : exn).

Definition route (g : StateGraph) (source : string) (gotos : list string)
  (tick : nat) (state : WorkflowState) : Step :=
  match branch_targets (branches g) source tick state with
  | Raise e => Throw e
  | Ok answered =>
      let all := (gotos ++ answered ++ static_targets (edges g) source)%list in
      match remove_dups (filter (fun t => t ≠ END) all) with
      | [] => Stop state
      | [next] => Goto next state
      | targets => Fanout targets state
      end
  end.

Definition step (g : StateGraph) (tick : nat) (current : string)
  (state : WorkflowState) : Step :=
  match nodes g !! current with
  | None => Throw (KeyError current)
  | Some fn =>
      match fn tick state with
      | Raise e => Throw e
      | Ok c => route g current [goto c] tick (update c)
      end
  end.

(** How a run stands after some stage executions: it reached [END] with a
    final state, it was aborted by an exception, it has a stage to run next,
    or it would have to run several stages side by side.  [trace] lists the
    stages entered so far, in order. *)
Inductive Outcome : Type :=
| Finished (state : WorkflowState) (trace : list string)
| Aborted (e : exn) (trace : list string)
| Running (current : string) (state : WorkflowState) (trace : list string)
| Forked (targets : list string) (trace : list string).

Definition continue (run : string -> WorkflowState -> Outcome)
  (trace : list string) (s : Step) : Outcome :=
  match s with
  | Stop state => Finished state trace
  | Goto next state => run next state
  | Fanout targets _ => Forked targets trace
  | Throw e => Aborted e trace
  end.

(** The next [fuel] stage executions, from stage [current] on; [tick] is the
    number of the execution that comes first. *)
Fixpoint run (g : StateGraph) (fuel tick : nat) (current : string)
  (state : WorkflowState) (trace : list string) : Outcome :=
  match fuel with
  | 0 => Running current state trace
  | S fuel' =>
      let trace' := (trace ++ [current])%list in
      continue (fun next state' => run g fuel' (S tick) next state' trace')
        trace' (step g tick current state)
  end.

(** The first [fuel] stage executions of [app.invoke(state)]: the router
    registered on [START] decides the first stage; it has index 0 and the
    stages are numbered from 1. *)
Definition invoke (g : StateGraph) (fuel : nat) (state : WorkflowState)
  : Outcome :=
  continue (fun next state' => run g fuel 1 next state' []) []
    (route g START [] 0 state).

(** The limit of the graph library when the caller names none, as in the
    [app.invoke(state)] of the source. *)
Definition recursion_limit : nat := 25.

(** [app.invoke(state, {"recursion_limit": limit})].  The library numbers the
    steps of the loop: step 0 is that of [START], in which the gate's router
    runs, and the stage executed as number [k] is step [k].  Before it
    collects the stages of a step, the loop gives up if the number of the
    step is above the limit, and [GraphRecursionError] is raised.  So [limit]
    stages are executed at most, and a run returns its final state only if
    it has reached [END] after fewer than [limit] of them.  A limit below 1
    is refused. *)
Definition app_invoke (g : StateGraph) (limit : nat) (state : WorkflowState)
  : Outcome :=
  match limit with
  | 0 => Aborted (ValueError "recursion_limit must be at least 1") []
  | _ =>
      match invoke g limit state with
      | Finished state' trace =>
          if Nat.ltb (length trace) limit then Finished state' trace
          else Aborted GraphRecursionError trace
      | Running _ _ trace => Aborted GraphRecursionError trace
      | o => o
      end
  end.

End Model.

Arguments HotelInfo : clear implicits.
Arguments QueryAnalysisResult : clear implicits.
Arguments WorkflowState : clear implicits.
Arguments SummaryInput : clear implicits.
Arguments Command : clear implicits.
Arguments Services : clear implicits.
Arguments Branch : clear implicits.
Arguments StateGraph : clear implicits.
Arguments Step : clear implicits.
Arguments Outcome : clear implicits.

(** ** Vocabulary of the properties *)

(** The attributes of the state, and the stage that assigns each of them in
    the source ([messages] is assigned by none). *)
Inductive Field : Type :=
| F_messages | F_destination | F_budget | F_native_currency | F_days
| F_group_size | F_activity_preferences | F_accommodation_type
| F_dietary_restrictions | F_transportation_preferences
| F_hotels | F_weather | F_attractions | F_calculator_result
| F_itinerary | F_summary.

Definition owner (f : Field) : option string :=
  match f with
  | F_messages => None
  | F_destination | F_budget | F_native_currency | F_days | F_group_size
  | F_activity_preferences | F_accommodation_type | F_dietary_restrictions
  | F_transportation_preferences => Some "query_analyzer"
  | F_hotels => Some "hotel_agent"
  | F_weather => Some "weather_agent"
  | F_attractions => Some "attractions_agent"
  | F_calculator_result => Some "calculator_agent"
  | F_itinerary => Some "itinerary_agent"
  | F_summary => Some "summary_agent"
  end.

(** The two states hold the same value in field [f]. *)
Definition field_eq {Float TripPlan : Type} (f : Field)
  (a b : WorkflowState Float TripPlan) : Prop :=
  match f with
  | F_messages => messages a = messages b
  | F_destination => destination a = destination b
  | F_budget => budget a = budget b
  | F_native_currency => native_currency a = native_currency b
  | F_days => days a = days b
  | F_group_size => group_size a = group_size b
  | F_activity_preferences => activity_preferences a = activity_preferences b
  | F_accommodation_type => accommodation_type a = accommodation_type b
  | F_dietary_restrictions => dietary_restrictions a = dietary_restrictions b
  | F_transportation_preferences =>
      transportation_preferences a = transportation_preferences b
  | F_hotels => hotels a = hotels b
  | F_weather => weather a = weather b
  | F_attractions => attractions a = attractions b
  | F_calculator_result => calculator_result a = calculator_result b
  | F_itinerary => itinerary a = itinerary b
  | F_summary => summary a = summary b
  end.

(** Going from [a] to [b], only fields owned by [writer] may have changed. *)
Definition frame {Float TripPlan : Type} (writer : string)
  (a b : WorkflowState Float TripPlan) : Prop :=
  forall f, owner f <> Some writer -> field_eq f a b.

(** Every field a stage after the gate assigns is unset. *)
Definition post_gate_unset {Float TripPlan : Type}
  (a : WorkflowState Float TripPlan) : Prop :=
  destination a = None /\ budget a = None /\ native_currency a = None /\
  days a = None /\ group_size a = None /\ activity_preferences a = None /\
  accommodation_type a = None /\ dietary_restrictions a = None /\
  transportation_preferences a = None /\ hotels a = None /\
  weather a = None /\ attractions a = None /\ calculator_result a = None /\
  itinerary a = None /\ summary a = None.

(** The stages the summary stage may send the run back to: the stage keys of
    the dict registered with [summary_supervisor_router]. *)
Definition legal_targets : list string :=
  ["attractions_agent"; "itinerary_agent"; "calculator_agent"].

(** The stages between the gate and the end of the run, in the order of the
    fixed edges. *)
Definition linear_chain : list string :=
  ["query_analyzer"; "hotel_agent"; "weather_agent"; "attractions_agent";
   "calculator_agent"; "itinerary_agent"; "summary_agent"].

(** How often stage [n] was entered. *)
Definition entries (n : string) (trace : list string) : nat :=
  length (filter (fun x => x = n) trace).

Definition trace_of {Float TripPlan : Type} (o : Outcome Float TripPlan)
  : list string :=
  match o with
  | Finished _ t | Aborted _ t | Running _ _ t | Forked _ t => t
  end.

Definition final_state {Float TripPlan : Type} (o : Outcome Float TripPlan)
  : option (WorkflowState Float TripPlan) :=
  match o with
  | Finished st _ => Some st
  | _ => None
  end.





(** ** Deterministic stand-ins for the collaborators

    Prices are whole numbers and an itinerary is a list of day plans. *)

Module Stub.

Definition State : Type := WorkflowState Z (list string).

Definition request : Message :=
  {| content := "I want to go to Paris for 3 days, my budget is 1000 EUR, I like art and culture, my currency is USD" |}.

(** The state of the [__main__] block of the source. *)
Definition initial : State :=
  {| messages := [request]; destination := None; budget := None;
     native_currency := None; days := None; group_size := None;
     activity_preferences := None; accommodation_type := None;
     dietary_restrictions := None; transportation_preferences := None;
     hotels := None; weather := None; attractions := None;
     calculator_result := None; itinerary := None; summary := None |}.

Definition paris : QueryAnalysisResult Z :=
  {| qa_destination := Some "Paris"; qa_budget := Some 1000%Z;
     qa_native_currency := Some "USD"; qa_days := Some 3%Z;
     qa_group_size := None;
     qa_activity_preferences := Some ["art"; "culture"];
     qa_accommodation_type := None; qa_dietary_restrictions := None;
     qa_transportation_preferences := None |}.

Definition lutetia : HotelInfo Z :=
  {| name := "Lutetia"; price_per_night := 180%Z; review_count := 412%Z;
     rating := 4%Z; url := "https://example.org/lutetia" |}.

(** The alphanumeric code points of the Unicode database between U+0080 and
    U+00FF: the letters, the superscript digits and the fractions of the
    Latin-1 supplement.  It knows no character beyond. *)
Definition latin1 (cp : N) : bool :=
  ((cp =? 170) || (cp =? 178) || (cp =? 179) || (cp =? 181) || (cp =? 185)
   || (cp =? 186) || (188 <=? cp) && (cp <=? 190)
   || (192 <=? cp) && (cp <=? 214) || (216 <=? cp) && (cp <=? 246)
   || (248 <=? cp) && (cp <=? 255))%N.

(** Collaborators that give the same answer whenever they are asked: the
    gate's label, the analysis, the decoding of the hotel list, the weather
    and the text of the summary are chosen by the caller.  The interpreter
    knows the characters of Latin-1. *)
Definition services (label : string)
  (analysis : result (QueryAnalysisResult Z))
  (decoded : result (list (HotelInfo Z)))
  (forecast : result string) (summary_entry : string)
  : Services Z (list string) :=
  {| travel_evaluator_invoke := fun _ _ => Ok label;
     query_analyzer_analyze := fun _ _ => analysis;
     hotel_agent_invoke := fun _ _ => Ok "[...]";
     parse_hotels := fun _ => decoded;
     weather_agent_invoke := fun _ _ => forecast;
     attractions_agent_invoke := fun _ _ => Ok "Louvre, Orsay";
     calculator_agent_invoke := fun _ _ => Ok "hotel 540, museums 60";
     itinerary_builder_build := fun _ _ => Ok ["Louvre"; "Orsay"; "Seine"];
     generate_summary := fun _ _ =>
       Ok (Some (SummaryDict {[ "summary" := Str summary_entry ]}));
     unicode_word := latin1 |}.

Definition happy : Services Z (list string) :=
  services "TRAVEL" (Ok paris) (Ok [lutetia]) (Ok "sunny")
    "A fine trip. This is the final plan.".

Definition malformed_hotels : Services Z (list string) :=
  services "TRAVEL" (Ok paris) (Raise JSONDecodeError) (Ok "sunny")
    "A fine trip. This is the final plan.".


Definition regenerating (target : string) : Services Z (list string) :=
  services "TRAVEL" (Ok paris) (Ok [lutetia]) (Ok "sunny")
    ("Too expensive. regenerate:" ++ target).

Definition off_topic : Services Z (list string) :=
  services "NOT_TRAVEL" (Ok paris) (Ok [lutetia]) (Ok "sunny") "final".

Definition mute_gate : Services Z (list string) :=
  services "" (Ok paris) (Ok [lutetia]) (Ok "sunny") "final".

Definition no_analysis : Services Z (list string) :=
  services "TRAVEL" (Raise ValidationError) (Ok [lutetia]) (Ok "sunny")
    "final".

End Stub.

(** ** Vocabulary of the further properties *)

(** The text holds an occurrence of the pattern [regenerate:(\w+_agent)]: a
    non-empty run of word characters followed by [_agent], right after
    [regenerate:]. *)
Definition has_marker (alnum : N -> bool) (text : string) : Prop :=
  exists pre w rest,
    text = (pre ++ "regenerate:" ++ w ++ "_agent" ++ rest)%string /\
    w <> "" /\ Re.all_word alnum w = true.

Fixpoint index_of (n : string) (l : list string) : nat :=
  match l with
  | [] => 0
  | x :: l' => if String.eqb x n then 0 else S (index_of n l')
  end.

(** The place of a stage in [linear_chain], from 0 for the extraction stage
    to 6 for the summary stage; 7 for any other name. *)
Definition position (n : string) : nat := index_of n linear_chain.




(** The stages no regeneration can lead to, and the others. *)
Definition early_stages : list string := take 3 linear_chain.
Definition late_stages : list string := drop 3 linear_chain.

(** The fields written before the first stage of [late_stages] runs. *)
Definition first_pass_fields : list Field :=
  [F_messages; F_destination; F_budget; F_native_currency; F_days;
   F_group_size; F_activity_preferences; F_accommodation_type;
   F_dietary_restrictions; F_transportation_preferences; F_hotels;
   F_weather].

(** The state a run has reached, when it has one to show. *)
Definition state_of {Float TripPlan : Type} (o : Outcome Float TripPlan)
  : option (WorkflowState Float TripPlan) :=
  match o with
  | Finished st _ | Running _ st _ => Some st
  | _ => None
  end.

(** The state holds the trip parameters of the analysis [r]. *)
Definition holds_analysis {Float TripPlan : Type}
  (a : WorkflowState Float TripPlan) (r : QueryAnalysisResult Float) : Prop :=
  destination a = qa_destination r /\ budget a = qa_budget r /\
  native_currency a = qa_native_currency r /\ days a = qa_days r /\
  group_size a = qa_group_size r /\
  activity_preferences a = qa_activity_preferences r /\
  accommodation_type a = qa_accommodation_type r /\
  dietary_restrictions a = qa_dietary_restrictions r /\
  transportation_preferences a = qa_transportation_preferences r.

(** What the hotel stage stores for the raw output [raw]. *)
Definition decoded_hotels {Float TripPlan : Type}
  (svc : Services Float TripPlan) (raw : string) : list (HotelInfo Float) :=
  match parse_hotels svc raw with
  | Ok hs => hs
  | Raise _ => []
  end.

(** The moves of the graph, stage by stage: [hop svc tick current st next
    st'] says that stage [current], run in state [st] as execution number
    [tick], leaves state [st'] and hands over to [next], or ends the run when
    [next] is [None]. *)
Inductive hop {Float TripPlan : Type} (svc : Services Float TripPlan)
  (tick : nat)
  : string -> WorkflowState Float TripPlan -> option string ->
    WorkflowState Float TripPlan -> Prop :=
| hop_query_analyzer st m r :
    last (messages st) = Some m ->
    query_analyzer_analyze svc tick (content m) = Ok r ->
    hop svc tick "query_analyzer" st (Some "hotel_agent")
      (merge_analysis st r)
| hop_hotel_agent st raw :
    hotel_agent_invoke svc tick st = Ok raw ->
    (forall e, parse_hotels svc raw = Raise e -> hotel_except e = true) ->
    hop svc tick "hotel_agent" st (Some "weather_agent")
      (set_hotels st (Some (decoded_hotels svc raw)))
| hop_weather_agent st w :
    weather_agent_invoke svc tick (messages st) = Ok w ->
    hop svc tick "weather_agent" st (Some "attractions_agent")
      (set_weather st (Some w))
| hop_attractions_agent st a :
    attractions_agent_invoke svc tick st = Ok a ->
    hop svc tick "attractions_agent" st (Some "calculator_agent")
      (set_attractions st (Some a))
| hop_calculator_agent st c :
    calculator_agent_invoke svc tick st = Ok c ->
    hop svc tick "calculator_agent" st (Some "itinerary_agent")
      (set_calculator_result st (Some c))
| hop_itinerary_agent st p :
    itinerary_builder_build svc tick st = Ok p ->
    hop svc tick "itinerary_agent" st (Some "summary_agent")
      (set_itinerary st (Some p))
| hop_regenerate st v text t :
    generate_summary svc tick (summary_input st) = Ok v ->
    content_of v = Some text ->
    Re.search (unicode_word svc) text = Some t ->
    t ∈ legal_targets ->
    hop svc tick "summary_agent" st (Some t) (set_summary st v)
| hop_end st v text :
    generate_summary svc tick (summary_input st) = Ok v ->
    content_of v = Some text ->
    Re.search (unicode_word svc) text = None ->
    hop svc tick "summary_agent" st None (set_summary st v).

(** ** Further stand-ins *)

Module Probe.

(** [svc] with another travel evaluator, decoder or summary generator. *)
Definition with_evaluator (svc : Services Z (list string))
  (answer : result string) : Services Z (list string) :=
  {| travel_evaluator_invoke := fun _ _ => answer;
     query_analyzer_analyze := query_analyzer_analyze svc;
     hotel_agent_invoke := hotel_agent_invoke svc;
     parse_hotels := parse_hotels svc;
     weather_agent_invoke := weather_agent_invoke svc;
     attractions_agent_invoke := attractions_agent_invoke svc;
     calculator_agent_invoke := calculator_agent_invoke svc;
     itinerary_builder_build := itinerary_builder_build svc;
     generate_summary := generate_summary svc;
     unicode_word := unicode_word svc |}.

Definition with_decoder (svc : Services Z (list string))
  (decoded : result (list (HotelInfo Z))) : Services Z (list string) :=
  {| travel_evaluator_invoke := travel_evaluator_invoke svc;
     query_analyzer_analyze := query_analyzer_analyze svc;
     hotel_agent_invoke := hotel_agent_invoke svc;
     parse_hotels := fun _ => decoded;
     weather_agent_invoke := weather_agent_invoke svc;
     attractions_agent_invoke := attractions_agent_invoke svc;
     calculator_agent_invoke := calculator_agent_invoke svc;
     itinerary_builder_build := itinerary_builder_build svc;
     generate_summary := generate_summary svc;
     unicode_word := unicode_word svc |}.

Definition with_summary (svc : Services Z (list string))
  (answer : result (option SummaryValue)) : Services Z (list string) :=
  {| travel_evaluator_invoke := travel_evaluator_invoke svc;
     query_analyzer_analyze := query_analyzer_analyze svc;
     hotel_agent_invoke := hotel_agent_invoke svc;
     parse_hotels := parse_hotels svc;
     weather_agent_invoke := weather_agent_invoke svc;
     attractions_agent_invoke := attractions_agent_invoke svc;
     calculator_agent_invoke := calculator_agent_invoke svc;
     itinerary_builder_build := itinerary_builder_build svc;
     generate_summary := fun _ _ => answer;
     unicode_word := unicode_word svc |}.

(** A conversation without messages. *)
Definition silent : Stub.State :=
  {| messages := []; destination := None; budget := None;
     native_currency := None; days := None; group_size := None;
     activity_preferences := None; accommodation_type := None;
     dietary_restrictions := None; transportation_preferences := None;
     hotels := None; weather := None; attractions := None;
     calculator_result := None; itinerary := None; summary := None |}.

(** A summary that asks for a new itinerary the first time it is written
    (execution 7) and is content afterwards. *)
Definition second_thoughts : Services Z (list string) :=
  {| travel_evaluator_invoke := travel_evaluator_invoke Stub.happy;
     query_analyzer_analyze := query_analyzer_analyze Stub.happy;
     hotel_agent_invoke := hotel_agent_invoke Stub.happy;
     parse_hotels := parse_hotels Stub.happy;
     weather_agent_invoke := weather_agent_invoke Stub.happy;
     attractions_agent_invoke := attractions_agent_invoke Stub.happy;
     calculator_agent_invoke := calculator_agent_invoke Stub.happy;
     itinerary_builder_build := fun tick _ =>
       Ok (if Nat.eqb tick 6 then ["Louvre"] else ["Louvre"; "Orsay"]);
     generate_summary := fun tick _ =>
       Ok (Some (SummaryDict
                   {[ "summary" :=
                        Str (if Nat.eqb tick 7
                             then "Too short. regenerate:itinerary_agent"
                             else "Now it is final.") ]}));
     unicode_word := Stub.latin1 |}.

End Probe.

(** * Properties *)

Local Open Scope list_scope.

(** ** The marker pattern *)

Lemma length_drop (j : nat) (s : string) :
  String.length (Re.drop j s) = String.length s - j.
Proof.
  revert s. induction j as [|j IH]; intros [|c s]; cbn; try lia. apply IH.
Qed.

Lemma length_take (n : nat) (s : string) :
  String.length (Re.take n s) = Nat.min n (String.length s).
Proof.
  revert s. induction n as [|n IH]; intros [|c s]; cbn; try lia.
  rewrite IH. reflexivity.
Qed.

Lemma prefix_length (p s : string) :
  String.prefix p s = true -> String.length p <= String.length s.
Proof.
  revert s. induction p as [|a p IH]; intros [|b s]; cbn; try lia.
  destruct (ascii_dec a b); [|discriminate]. intros H. apply IH in H. lia.
Qed.

Lemma append_cons (c : ascii) (a b : string) :
  (String c a ++ b)%string = String c (a ++ b)%string.
Proof. reflexivity. Qed.

Lemma take_drop (n : nat) (s : string) :
  (Re.take n s ++ Re.drop n s)%string = s.
Proof.
  revert s. induction n as [|n IH]; intros [|c s]; cbn; try reflexivity.
  rewrite append_cons, IH. reflexivity.
Qed.

Lemma take_add (j k : nat) (s : string) :
  Re.take (j + k) s = (Re.take j s ++ Re.take k (Re.drop j s))%string.
Proof.
  revert s. induction j as [|j IH]; intros s; cbn [Nat.add].
  - destruct s; reflexivity.
  - destruct s as [|c s]; cbn.
    + destruct k; reflexivity.
    + rewrite append_cons, IH. reflexivity.
Qed.

Lemma drop_add (j k : nat) (s : string) :
  Re.drop (j + k) s = Re.drop k (Re.drop j s).
Proof.
  revert s. induction j as [|j IH]; intros s; cbn [Nat.add].
  - destruct s; reflexivity.
  - destruct s as [|c s]; cbn [Re.drop]; [destruct k; reflexivity|apply IH].
Qed.

Lemma prefix_take (p s : string) :
  String.prefix p s = true -> Re.take (String.length p) s = p.
Proof.
  revert s. induction p as [|a p IH]; intros [|b s]; cbn; try reflexivity;
    try discriminate.
  destruct (ascii_dec a b) as [<-|]; [|discriminate].
  intros H. f_equal. exact (IH _ H).
Qed.

Lemma drop_append (w x : string) :
  Re.drop (String.length w) (w ++ x)%string = x.
Proof.
  induction w as [|a w IH]; [destruct x; reflexivity|].
  rewrite append_cons. cbn [String.length Re.drop]. exact IH.
Qed.

Lemma drop_take_append (n : nat) (s x : string) :
  n <= String.length s -> Re.drop n (Re.take n s ++ x)%string = x.
Proof.
  intros H. rewrite <- (drop_append (Re.take n s) x) at 2.
  rewrite length_take, Nat.min_l by exact H. reflexivity.
Qed.

Lemma append_assoc (a b c : string) :
  ((a ++ b) ++ c)%string = (a ++ (b ++ c))%string.
Proof.
  induction a as [|x a IH]; [reflexivity|].
  rewrite !append_cons, IH. reflexivity.
Qed.

(** *** Characters of more than one byte *)

(** A continuation byte is not the ASCII byte [_]. *)
Lemma continuation_not_marker (c : ascii) (s : string) :
  Re.continuation c = true -> String.prefix "_agent" (String c s) = false.
Proof.
  intros Hc. cbn [String.prefix].
  destruct (ascii_dec "_" c) as [<-|]; [discriminate Hc|reflexivity].
Qed.

Local Ltac decode_cases s H :=
  unfold Re.decode in H; destruct s as [|?a ?s]; [discriminate H|];
  cbv zeta in H;
  repeat match type of H with
    | (if (?x <? ?y)%N then _ else _) = _ => destruct (x <? y)%N eqn:?
    | (if ?b then _ else _) = _ => destruct b eqn:?
    | match ?t with EmptyString => _ | String _ _ => _ end = _ => destruct t
    | None = Some _ => discriminate H
    | Some _ = Some _ => injection H as <- <-
    end.

(** A character takes between one byte and the bytes that are there. *)
Lemma decode_length (s : string) (cp : N) (n : nat) :
  Re.decode s = Some (cp, n) -> 1 <= n <= String.length s.
Proof. intros H. decode_cases s H; cbn [String.length]; lia. Qed.

(** Inside a character no [_agent] starts. *)
Lemma decode_inside (s : string) (cp : N) (n j : nat) :
  Re.decode s = Some (cp, n) -> 0 < j < n ->
  String.prefix "_agent" (Re.drop j s) = false.
Proof.
  intros H Hj. decode_cases s H; try lia;
    repeat match goal with
      | E : (_ && _)%bool = true |- _ => apply andb_prop in E as [? ?]
      end;
    do 4 (destruct j as [|j];
          [try lia; cbn [Re.drop];
           try (apply continuation_not_marker; assumption)|]);
    lia.
Qed.

(** Reading a character looks at its bytes only. *)
Lemma decode_append (s x : string) (cp : N) (n : nat) :
  Re.decode s = Some (cp, n) ->
  Re.decode (Re.take n s ++ x)%string = Some (cp, n).
Proof.
  intros H. decode_cases s H;
    cbn [Re.take]; rewrite ?append_cons; unfold Re.decode; cbv zeta;
    repeat match goal with
      | E : _ = _ |- _ => rewrite E; clear E
      end;
    reflexivity.
Qed.

Section Word.

Variable alnum : N -> bool.

Lemma word_run_upto_enough (f1 f2 : nat) (s : string) :
  String.length s <= f1 -> String.length s <= f2 ->
  Re.word_run_upto alnum f1 s = Re.word_run_upto alnum f2 s.
Proof.
  revert f2 s. induction f1 as [|f1 IH]; intros f2 s H1 H2.
  - destruct s; [|cbn in H1; lia]. destruct f2; reflexivity.
  - destruct f2 as [|f2]; [destruct s; [reflexivity|cbn in H2; lia]|].
    cbn [Re.word_run_upto].
    destruct (Re.decode s) as [[cp n]|] eqn:Hd; [|reflexivity].
    destruct (Re.is_word alnum cp); [|reflexivity].
    pose proof (decode_length _ _ _ Hd) as Hn.
    f_equal. apply IH; rewrite length_drop; lia.
Qed.

(** The run of word characters, one character at a time. *)
Lemma word_run_eq (s : string) :
  Re.word_run alnum s
  = match Re.decode s with
    | Some (cp, n) =>
        if Re.is_word alnum cp then n + Re.word_run alnum (Re.drop n s) else 0
    | None => 0
    end.
Proof.
  unfold Re.word_run. destruct s as [|a s]; [reflexivity|].
  cbn [String.length Re.word_run_upto].
  destruct (Re.decode (String a s)) as [[cp n]|] eqn:Hd; [|reflexivity].
  destruct (Re.is_word alnum cp); [|reflexivity].
  pose proof (decode_length _ _ _ Hd) as Hn. cbn [String.length] in Hn.
  f_equal. apply word_run_upto_enough; rewrite ?length_drop; cbn; lia.
Qed.

Lemma word_run_empty : Re.word_run alnum "" = 0.
Proof. reflexivity. Qed.

(** What [\w+] keeps when [_agent] follows is made of word characters. *)
Lemma take_word_run (j : nat) (s : string) :
  j <= Re.word_run alnum s ->
  String.prefix "_agent" (Re.drop j s) = true ->
  Re.all_word alnum (Re.take j s) = true.
Proof.
  intros Hj Hp.
  assert (Hlen : j <= String.length s).
  { apply prefix_length in Hp. rewrite length_drop in Hp. cbn in Hp. lia. }
  unfold Re.all_word. rewrite length_take, Nat.min_l by exact Hlen.
  apply Nat.eqb_eq. clear Hlen.
  remember (String.length s) as m eqn:Hm.
  assert (Hle : String.length s <= m) by lia. clear Hm.
  revert s j Hle Hj Hp. induction m as [|m IH]; intros s j Hle Hj Hp.
  - destruct s; [|cbn in Hle; lia]. rewrite word_run_empty in Hj.
    assert (j = 0) as -> by lia. reflexivity.
  - destruct j as [|j]; [destruct s; reflexivity|].
    rewrite word_run_eq in Hj.
    destruct (Re.decode s) as [[cp n]|] eqn:Hd; [|lia].
    destruct (Re.is_word alnum cp) eqn:Hw; [|lia].
    pose proof (decode_length _ _ _ Hd) as Hn.
    destruct (le_lt_dec n (S j)) as [Hge|Hlt].
    + replace (S j) with (n + (S j - n)) in Hp |- * by lia.
      rewrite take_add, word_run_eq, (decode_append _ _ _ _ Hd), Hw.
      rewrite drop_take_append by lia. rewrite drop_add in Hp.
      rewrite (IH (Re.drop n s) (S j - n)); [lia| | |exact Hp].
      * rewrite length_drop. lia.
      * lia.
    + rewrite (decode_inside _ _ _ (S j) Hd) in Hp by lia. discriminate.
Qed.

Lemma word_run_append (w x : string) :
  Re.all_word alnum w = true ->
  String.length w <= Re.word_run alnum (w ++ x)%string.
Proof.
  unfold Re.all_word. intros H. apply Nat.eqb_eq in H.
  assert (Hle : String.length w <= String.length w) by lia.
  revert Hle H. generalize (String.length w) at 2 as m. intros m.
  revert w. induction m as [|m IH]; intros w Hle H.
  - destruct w; [cbn; lia|cbn in Hle; lia].
  - destruct w as [|a w]; [cbn; lia|].
    rewrite word_run_eq in H.
    destruct (Re.decode (String a w)) as [[cp n]|] eqn:Hd;
      [|cbn in H; lia].
    destruct (Re.is_word alnum cp) eqn:Hw; [|cbn in H; lia].
    pose proof (decode_length _ _ _ Hd) as Hn.
    rewrite <- (take_drop n (String a w)) at 2.
    rewrite append_assoc, word_run_eq, (decode_append _ _ _ _ Hd), Hw.
    rewrite drop_take_append by lia.
    assert (Hrec : String.length (Re.drop n (String a w))
                   <= Re.word_run alnum (Re.drop n (String a w) ++ x)%string).
    { apply IH; rewrite ?length_drop; cbn [String.length] in *; lia. }
    rewrite length_drop in Hrec. lia.
Qed.

Lemma backtrack_some (s : string) (k : nat) (g : string) :
  Re.backtrack s k = Some g ->
  exists j, 1 <= j <= k /\ String.prefix "_agent" (Re.drop j s) = true
            /\ g = Re.take (j + 6) s.
Proof.
  induction k as [|k IH]; cbn [Re.backtrack]; [discriminate|].
  destruct (String.prefix "_agent" (Re.drop (S k) s)) eqn:E.
  - intros [= <-]. exists (S k). split; [lia|]. split; [exact E|reflexivity].
  - intros H. destruct (IH H) as (j & Hj & Hp & Hg).
    exists j. split; [lia|]. auto.
Qed.

(** What [Re.search] returns is group 1 of an occurrence of the pattern: a
    non-empty run of word characters followed by [_agent], right after
    [regenerate:]. *)
Lemma match_at_sound (s g : string) :
  Re.match_at alnum s = Some g ->
  exists w rest,
    s = ("regenerate:" ++ w ++ "_agent" ++ rest)%string /\
    g = (w ++ "_agent")%string /\ w <> "" /\ Re.all_word alnum w = true.
Proof.
  unfold Re.match_at.
  destruct (String.prefix "regenerate:" s) eqn:Hpre; [|discriminate].
  intros H. apply backtrack_some in H as (j & Hj & Hp & ->).
  set (r := Re.drop 11 s) in *.
  pose proof (prefix_take _ _ Hpre) as E1.
  pose proof (prefix_take _ _ Hp) as E2.
  change (String.length "regenerate:") with 11 in E1.
  change (String.length "_agent") with 6 in E2.
  exists (Re.take j r), (Re.drop 6 (Re.drop j r)). split; [|split; [|split]].
  - rewrite <- (take_drop 11 s) at 1. rewrite E1. fold r.
    rewrite <- (take_drop j r) at 1.
    rewrite <- (take_drop 6 (Re.drop j r)) at 1.
    rewrite E2. reflexivity.
  - rewrite take_add, E2. reflexivity.
  - destruct j as [|j]; [lia|]. destruct r as [|c r'].
    + cbn in Hp. discriminate.
    + cbn. discriminate.
  - apply take_word_run; [lia|exact Hp].
Qed.

Lemma search_sound (s g : string) :
  Re.search alnum s = Some g ->
  exists pre w rest,
    s = (pre ++ "regenerate:" ++ w ++ "_agent" ++ rest)%string /\
    g = (w ++ "_agent")%string /\ w <> "" /\ Re.all_word alnum w = true.
Proof.
  induction s as [|c s IH]; cbn [Re.search].
  - destruct (Re.match_at alnum "") eqn:E; [|discriminate].
    intros [= ->]. destruct (match_at_sound _ _ E) as (w & rest & H).
    exists "", w, rest. exact H.
  - destruct (Re.match_at alnum (String c s)) eqn:E.
    + intros [= ->]. destruct (match_at_sound _ _ E) as (w & rest & H).
      exists "", w, rest. exact H.
    + intros H. destruct (IH H) as (pre & w & rest & -> & Hg).
      exists (String c pre), w, rest. split; [reflexivity|exact Hg].
Qed.

(** A stage name read from a marker ends in [_agent]; it is never [END]. *)
Lemma match_at_not_END (s : string) : Re.match_at alnum s <> Some END.
Proof.
  unfold Re.match_at.
  destruct (String.prefix "regenerate:" s); [|discriminate].
  intros H. apply backtrack_some in H as (j & Hj & Hp & Hg).
  pose proof (prefix_length _ _ Hp) as Hl. rewrite length_drop in Hl.
  pose proof (f_equal String.length Hg) as Hn. rewrite length_take in Hn.
  cbn in Hl, Hn.
  assert (j = 1) as -> by lia.
  unfold END in Hg.
  destruct (Re.drop 11 s) as [|c [|c1 [|c2 r]]];
    cbn [String.prefix Re.drop Re.take Nat.add] in Hp, Hg; try discriminate.
  destruct (ascii_dec "_" c1); [|discriminate].
  destruct (ascii_dec "a" c2) as [<-|]; discriminate.
Qed.

Lemma search_not_END (text : string) : Re.search alnum text <> Some END.
Proof.
  induction text as [|c text IH]; cbn [Re.search].
  - destruct (Re.match_at alnum "") eqn:E; [|discriminate].
    intros H. injection H as ->. exact (match_at_not_END _ E).
  - destruct (Re.match_at alnum (String c text)) eqn:E; [|exact IH].
    intros H. injection H as ->. exact (match_at_not_END _ E).
Qed.

End Word.

Section Properties.

Context {Float TripPlan : Type} (svc : Services Float TripPlan).

Local Abbreviation State := (WorkflowState Float TripPlan).

(** ** The graph as registered *)

Lemma nodes_query_analyzer :
  nodes (workflow svc) !! "query_analyzer" = Some (node_query_analyzer svc).
Proof. reflexivity. Qed.

Lemma nodes_hotel_agent :
  nodes (workflow svc) !! "hotel_agent" = Some (node_hotel_agent svc).
Proof. reflexivity. Qed.

Lemma nodes_weather_agent :
  nodes (workflow svc) !! "weather_agent" = Some (node_weather_agent svc).
Proof. reflexivity. Qed.

Lemma nodes_attractions_agent :
  nodes (workflow svc) !! "attractions_agent"
  = Some (node_attractions_agent svc).
Proof. reflexivity. Qed.

Lemma nodes_calculator_agent :
  nodes (workflow svc) !! "calculator_agent"
  = Some (node_calculator_agent svc).
Proof. reflexivity. Qed.

Lemma nodes_itinerary_agent :
  nodes (workflow svc) !! "itinerary_agent" = Some (node_itinerary_agent svc).
Proof. reflexivity. Qed.

Lemma nodes_summary_agent :
  nodes (workflow svc) !! "summary_agent" = Some (node_summary_agent svc).
Proof. reflexivity. Qed.

Lemma nodes_unknown (current : string) :
  current ∉ linear_chain -> nodes (workflow svc) !! current = None.
Proof.
  intros H. unfold linear_chain in H.
  repeat (apply not_elem_of_cons in H as [? H]).
  change (nodes (workflow svc)) with
    (<["summary_agent" := node_summary_agent svc]>
     (<["itinerary_agent" := node_itinerary_agent svc]>
      (<["calculator_agent" := node_calculator_agent svc]>
       (<["attractions_agent" := node_attractions_agent svc]>
        (<["weather_agent" := node_weather_agent svc]>
         (<["hotel_agent" := node_hotel_agent svc]>
          (<["query_analyzer" := node_query_analyzer svc]>
           (∅ : gmap string (nat -> State -> result (Command Float TripPlan)))))))))).
  rewrite !lookup_insert_ne by done. apply lookup_empty.
Qed.

Lemma summary_path_map_legal (t : string) :
  t ∈ legal_targets -> summary_path_map !! t = Some t.
Proof.
  unfold legal_targets. rewrite !elem_of_cons.
  intros [->|[->|[->|H]]]; try reflexivity. inversion H.
Qed.

Lemma summary_path_map_missing (t : string) :
  t ∉ legal_targets -> t <> END -> summary_path_map !! t = None.
Proof.
  unfold legal_targets, summary_path_map. intros H Hend.
  repeat (apply not_elem_of_cons in H as [? H]).
  rewrite !lookup_insert_ne by done. apply lookup_singleton_ne. done.
Qed.

Lemma summary_path_map_range (t n : string) :
  summary_path_map !! t = Some n -> n = t /\ (t ∈ legal_targets \/ t = END).
Proof.
  destruct (decide (t ∈ legal_targets)) as [Hin|Hout].
  - rewrite (summary_path_map_legal _ Hin). intros [= <-]. auto.
  - destruct (decide (t = END)) as [->|Hend].
    + intros H. vm_compute in H. injection H as <-. auto.
    + rewrite (summary_path_map_missing _ Hout Hend). discriminate.
Qed.


(** ** One step of each stage *)

Lemma step_query_analyzer (tick : nat) (st : State) :
  step (workflow svc) tick "query_analyzer" st =
  match last_message st with
  | Ok m =>
      match query_analyzer_analyze svc tick (content m) with
      | Ok r => Goto "hotel_agent" (merge_analysis st r)
      | Raise e => Throw e
      end
  | Raise e => Throw e
  end.
Proof.
  unfold step. rewrite nodes_query_analyzer. unfold node_query_analyzer.
  destruct (last_message st) as [m|e]; [|reflexivity].
  change (mbind ?k (Ok m)) with (k m). cbv beta.
  destruct (query_analyzer_analyze svc tick (content m)); reflexivity.
Qed.

Lemma step_hotel_agent (tick : nat) (st : State) :
  step (workflow svc) tick "hotel_agent" st =
  match hotel_agent_invoke svc tick st with
  | Ok raw =>
      match parse_hotels svc raw with
      | Ok hs => Goto "weather_agent" (set_hotels st (Some hs))
      | Raise e =>
          if hotel_except e then Goto "weather_agent" (set_hotels st (Some []))
          else Throw e
      end
  | Raise e => Throw e
  end.
Proof.
  unfold step. rewrite nodes_hotel_agent. unfold node_hotel_agent.
  destruct (hotel_agent_invoke svc tick st) as [raw|e]; [|reflexivity].
  change (mbind ?k (Ok raw)) with (k raw). cbv beta.
  destruct (parse_hotels svc raw) as [hs|e]; [reflexivity|].
  destruct (hotel_except e); reflexivity.
Qed.

Lemma step_weather_agent (tick : nat) (st : State) :
  step (workflow svc) tick "weather_agent" st =
  match weather_agent_invoke svc tick (messages st) with
  | Ok w => Goto "attractions_agent" (set_weather st (Some w))
  | Raise e => Throw e
  end.
Proof.
  unfold step. rewrite nodes_weather_agent. unfold node_weather_agent.
  destruct (weather_agent_invoke svc tick (messages st)); reflexivity.
Qed.

Lemma step_attractions_agent (tick : nat) (st : State) :
  step (workflow svc) tick "attractions_agent" st =
  match attractions_agent_invoke svc tick st with
  | Ok a => Goto "calculator_agent" (set_attractions st (Some a))
  | Raise e => Throw e
  end.
Proof.
  unfold step. rewrite nodes_attractions_agent. unfold node_attractions_agent.
  destruct (attractions_agent_invoke svc tick st); reflexivity.
Qed.

Lemma step_calculator_agent (tick : nat) (st : State) :
  step (workflow svc) tick "calculator_agent" st =
  match calculator_agent_invoke svc tick st with
  | Ok c => Goto "itinerary_agent" (set_calculator_result st (Some c))
  | Raise e => Throw e
  end.
Proof.
  unfold step. rewrite nodes_calculator_agent. unfold node_calculator_agent.
  destruct (calculator_agent_invoke svc tick st); reflexivity.
Qed.

Lemma step_itinerary_agent (tick : nat) (st : State) :
  step (workflow svc) tick "itinerary_agent" st =
  match itinerary_builder_build svc tick st with
  | Ok p => Goto "summary_agent" (set_itinerary st (Some p))
  | Raise e => Throw e
  end.
Proof.
  unfold step. rewrite nodes_itinerary_agent. unfold node_itinerary_agent.
  destruct (itinerary_builder_build svc tick st); reflexivity.
Qed.

(** What the summary stage and its router read in the text. *)
Lemma node_summary_agent_text (tick : nat) (st : State)
  (v : option SummaryValue) (text : string) :
  generate_summary svc tick (summary_input st) = Ok v ->
  content_of v = Some text ->
  node_summary_agent svc tick st =
  Ok {| goto := default END (Re.search (unicode_word svc) text);
        update := set_summary st v |}.
Proof.
  intros Hv Ht. unfold node_summary_agent. rewrite Hv.
  change (mbind ?k (Ok v)) with (k v). cbv beta zeta. rewrite Ht.
  destruct (Re.search (unicode_word svc) text); [reflexivity|].
  destruct (contains "final" (lower text)); reflexivity.
Qed.

Lemma summary_supervisor_router_text (tick : nat) (st : State)
  (text : string) :
  content_of (summary st) = Some text ->
  summary_supervisor_router svc tick st
  = Ok (default END (Re.search (unicode_word svc) text)).
Proof.
  intros Ht. unfold summary_supervisor_router.
  rewrite Ht. destruct (Re.search (unicode_word svc) text); [reflexivity|].
  destruct (contains "final" (lower text)); reflexivity.
Qed.

Lemma route_summary_agent (tick : nat) (st : State) (t : string) :
  summary_supervisor_router svc tick st = Ok t ->
  route (workflow svc) "summary_agent" [t] tick st =
  match summary_path_map !! t with
  | Some _ => if bool_decide (t = END) then Stop st else Goto t st
  | None => Throw (KeyError t)
  end.
Proof.
  intros H. unfold route.
  change (branch_targets (branches (workflow svc)) "summary_agent" tick st)
    with (answer ← summary_supervisor_router svc tick st;
          target ← match summary_path_map !! answer with
                    | Some t' => Ok t'
                    | None => Raise (KeyError answer)
                    end;
          targets ← Ok [];
          Ok (target :: targets)).
  rewrite H. change (mbind ?k (Ok t)) with (k t). cbv beta.
  destruct (summary_path_map !! t) as [n|] eqn:E; [|reflexivity].
  apply summary_path_map_range in E as [-> [Hin| ->]].
  - unfold legal_targets in Hin. rewrite !elem_of_cons in Hin.
    destruct Hin as [->|[->|[->|Hin]]]; try reflexivity. inversion Hin.
  - reflexivity.
Qed.

Lemma step_summary_agent (tick : nat) (st : State) (v : option SummaryValue)
  (text : string) :
  generate_summary svc tick (summary_input st) = Ok v ->
  content_of v = Some text ->
  step (workflow svc) tick "summary_agent" st =
  match Re.search (unicode_word svc) text with
  | Some t =>
      match summary_path_map !! t with
      | Some _ =>
          if bool_decide (t = END) then Stop (set_summary st v)
          else Goto t (set_summary st v)
      | None => Throw (KeyError t)
      end
  | None => Stop (set_summary st v)
  end.
Proof.
  intros Hv Ht. unfold step. rewrite nodes_summary_agent.
  rewrite (node_summary_agent_text _ _ _ _ Hv Ht).
  cbv beta iota. cbn [goto update].
  rewrite (route_summary_agent tick _
             (default END (Re.search (unicode_word svc) text)))
    by (apply summary_supervisor_router_text; exact Ht).
  destruct (Re.search (unicode_word svc) text) as [t|]; reflexivity.
Qed.

Lemma step_summary_agent_raises (tick : nat) (st : State) (e : exn) :
  generate_summary svc tick (summary_input st) = Raise e ->
  step (workflow svc) tick "summary_agent" st = Throw e.
Proof.
  intros H. unfold step. rewrite nodes_summary_agent.
  unfold node_summary_agent. rewrite H. reflexivity.
Qed.

Lemma step_summary_agent_no_text (tick : nat) (st : State)
  (v : option SummaryValue) :
  generate_summary svc tick (summary_input st) = Ok v ->
  content_of v = None ->
  step (workflow svc) tick "summary_agent" st = Throw TypeError.
Proof.
  intros Hv Ht. unfold step. rewrite nodes_summary_agent.
  unfold node_summary_agent. rewrite Hv.
  change (mbind ?k (Ok v)) with (k v). cbv beta zeta. rewrite Ht.
  reflexivity.
Qed.

Lemma step_unknown (tick : nat) (current : string) (st : State) :
  current ∉ linear_chain ->
  step (workflow svc) tick current st = Throw (KeyError current).
Proof. intros H. unfold step. rewrite (nodes_unknown _ H). reflexivity. Qed.



(** ** The gate *)

Lemma travel_path_map_missing (a : string) :
  a <> "TRAVEL" -> a <> "NOT_TRAVEL" -> travel_path_map !! a = None.
Proof.
  intros H1 H2. unfold travel_path_map.
  rewrite lookup_insert_ne by done. apply lookup_singleton_ne. done.
Qed.

Lemma route_start (tick : nat) (st : State) :
  route (workflow svc) START [] tick st =
  match router_travel_evaluator svc tick st with
  | Ok a =>
      if String.eqb a "TRAVEL" then Goto "query_analyzer" st
      else if String.eqb a "NOT_TRAVEL" then Stop st
      else Throw (KeyError a)
  | Raise e => Throw e
  end.
Proof.
  unfold route.
  change (branch_targets (branches (workflow svc)) START tick st)
    with (answer ← router_travel_evaluator svc tick st;
          target ← match travel_path_map !! answer with
                    | Some t' => Ok t'
                    | None => Raise (KeyError answer)
                    end;
          targets ← Ok [];
          Ok (target :: targets)).
  destruct (router_travel_evaluator svc tick st) as [a|e]; [|reflexivity].
  change (mbind ?k (Ok a)) with (k a). cbv beta.
  destruct (String.eqb_spec a "TRAVEL") as [->|H1]; [reflexivity|].
  destruct (String.eqb_spec a "NOT_TRAVEL") as [->|H2]; [reflexivity|].
  rewrite (travel_path_map_missing _ H1 H2). reflexivity.
Qed.

(** The gate's router passes on one of the two labels or raises. *)
Lemma router_travel_evaluator_answer (tick : nat) (st : State) (m : Message)
  (r : string) :
  last (messages st) = Some m ->
  travel_evaluator_invoke svc tick (content m) = Ok r ->
  router_travel_evaluator svc tick st =
  if String.eqb r "TRAVEL" || String.eqb r "NOT_TRAVEL" then Ok r
  else Raise (ValueError ("Invalid travel evaluator output: " ++ r)%string).
Proof.
  intros Hm Hr. unfold router_travel_evaluator, last_message.
  rewrite Hm. change (mbind ?k (Ok m)) with (k m). cbv beta.
  rewrite Hr. change (mbind ?k (Ok r)) with (k r). cbv beta.
  unfold TravelEvaluationResult.
  destruct (String.eqb r "TRAVEL" || String.eqb r "NOT_TRAVEL"); reflexivity.
Qed.


(** ** The loop *)



Lemma run_throw (g : StateGraph Float TripPlan) (fuel tick : nat)
  (current : string) (st : State) (e : exn) (trace : list string) :
  step g tick current st = Throw e ->
  run g (S fuel) tick current st trace = Aborted e (trace ++ [current]).
Proof. intros H. cbn [run]. rewrite H. reflexivity. Qed.

Lemma invoke_travel (fuel : nat) (st : State) :
  router_travel_evaluator svc 0 st = Ok "TRAVEL" ->
  invoke (workflow svc) fuel st
  = run (workflow svc) fuel 1 "query_analyzer" st [].
Proof. intros H. unfold invoke. rewrite route_start, H. reflexivity. Qed.



Lemma app_invoke_aborted (g : StateGraph Float TripPlan) (limit : nat)
  (st : State) (e : exn) (trace : list string) :
  0 < limit ->
  invoke g limit st = Aborted e trace ->
  app_invoke g limit st = Aborted e trace.
Proof.
  intros Hl H. unfold app_invoke. rewrite H.
  destruct limit; [lia|reflexivity].
Qed.

(** ** Ownership *)

Lemma frame_refl (writer : string) (st : State) : frame writer st st.
Proof. intros f _. destruct f; reflexivity. Qed.

Lemma frame_merge_analysis (st : State) (r : QueryAnalysisResult Float) :
  frame "query_analyzer" st (merge_analysis st r).
Proof. intros f Hf. destruct f; try reflexivity; cbn in Hf; congruence. Qed.

Lemma frame_set_hotels (st : State) v : frame "hotel_agent" st (set_hotels st v).
Proof. intros f Hf. destruct f; try reflexivity; cbn in Hf; congruence. Qed.

Lemma frame_set_weather (st : State) v :
  frame "weather_agent" st (set_weather st v).
Proof. intros f Hf. destruct f; try reflexivity; cbn in Hf; congruence. Qed.

Lemma frame_set_attractions (st : State) v :
  frame "attractions_agent" st (set_attractions st v).
Proof. intros f Hf. destruct f; try reflexivity; cbn in Hf; congruence. Qed.

Lemma frame_set_calculator_result (st : State) v :
  frame "calculator_agent" st (set_calculator_result st v).
Proof. intros f Hf. destruct f; try reflexivity; cbn in Hf; congruence. Qed.

Lemma frame_set_itinerary (st : State) v :
  frame "itinerary_agent" st (set_itinerary st v).
Proof. intros f Hf. destruct f; try reflexivity; cbn in Hf; congruence. Qed.

Lemma frame_set_summary (st : State) v :
  frame "summary_agent" st (set_summary st v).
Proof. intros f Hf. destruct f; try reflexivity; cbn in Hf; congruence. Qed.


(** ** Runs without failures *)





(** ** Runs that keep regenerating *)

Lemma legal_target_in_chain (t : string) :
  t ∈ legal_targets -> t ∈ tail linear_chain.
Proof.
  unfold legal_targets, linear_chain. cbn [tail]. rewrite !elem_of_cons.
  intros [->|[->|[->|H]]]; [| | |inversion H]; auto 10.
Qed.

Lemma legal_target_not_END (t : string) : t ∈ legal_targets -> t <> END.
Proof.
  unfold legal_targets. rewrite !elem_of_cons.
  intros [->|[->|[->|H]]]; [| | |inversion H]; discriminate.
Qed.

Lemma step_summary_agent_regenerate (tick : nat) (st : State)
  (v : option SummaryValue) (text t : string) :
  generate_summary svc tick (summary_input st) = Ok v ->
  content_of v = Some text ->
  Re.search (unicode_word svc) text = Some t ->
  t ∈ legal_targets ->
  step (workflow svc) tick "summary_agent" st
  = Goto t (set_summary st v).
Proof.
  intros Hv Ht Hs Hin. rewrite (step_summary_agent _ _ _ _ Hv Ht), Hs.
  rewrite (summary_path_map_legal _ Hin).
  rewrite bool_decide_eq_false_2 by (apply legal_target_not_END, Hin).
  reflexivity.
Qed.





Lemma entries_app (n : string) (a b : list string) :
  entries n (a ++ b) = entries n a + entries n b.
Proof. unfold entries. rewrite filter_app, length_app. reflexivity. Qed.

Lemma entries_cons_same (n : string) (l : list string) :
  entries n (n :: l) = S (entries n l).
Proof. unfold entries. rewrite filter_cons_True by done. reflexivity. Qed.

(** ** One stage at a time

    In this graph the three sources of a next stage always agree, so a step
    never asks for two stages at once and a run never forks. *)

Lemma step_sequential (tick : nat) (current : string) (st : State) :
  match step (workflow svc) tick current st with
  | Fanout _ _ => False
  | _ => True
  end.
Proof.
  destruct (decide (current ∈ linear_chain)) as [Hin|Hout].
  - unfold linear_chain in Hin. rewrite !elem_of_cons in Hin.
    destruct Hin as [->|[->|[->|[->|[->|[->|[->|Hin]]]]]]];
      [| | | | | | |inversion Hin].
    + rewrite step_query_analyzer.
      destruct (last_message st) as [m|]; [|exact I].
      destruct (query_analyzer_analyze svc tick (content m)); exact I.
    + rewrite step_hotel_agent.
      destruct (hotel_agent_invoke svc tick st) as [raw|]; [|exact I].
      destruct (parse_hotels svc raw) as [hs|e]; [exact I|].
      destruct (hotel_except e); exact I.
    + rewrite step_weather_agent.
      destruct (weather_agent_invoke svc tick (messages st)); exact I.
    + rewrite step_attractions_agent.
      destruct (attractions_agent_invoke svc tick st); exact I.
    + rewrite step_calculator_agent.
      destruct (calculator_agent_invoke svc tick st); exact I.
    + rewrite step_itinerary_agent.
      destruct (itinerary_builder_build svc tick st); exact I.
    + destruct (generate_summary svc tick (summary_input st)) as [v|e]
        eqn:Hv; [|rewrite (step_summary_agent_raises _ _ _ Hv); exact I].
      destruct (content_of v) as [text|] eqn:Ht;
        [|rewrite (step_summary_agent_no_text _ _ _ Hv Ht); exact I].
      rewrite (step_summary_agent _ _ _ _ Hv Ht).
      destruct (Re.search (unicode_word svc) text) as [t|]; [|exact I].
      destruct (summary_path_map !! t); [|exact I].
      destruct (bool_decide (t = END)); exact I.
  - rewrite (step_unknown _ _ _ Hout). exact I.
Qed.

Lemma run_never_forks (fuel : nat) :
  forall tick current (st : State) trace targets trace',
    run (workflow svc) fuel tick current st trace <> Forked targets trace'.
Proof.
  induction fuel as [|fuel IH]; intros tick current st trace targets trace';
    cbn [run]; [discriminate|].
  pose proof (step_sequential tick current st) as Hseq.
  destruct (step (workflow svc) tick current st); cbn [continue];
    [discriminate|apply IH|contradiction|discriminate].
Qed.

Lemma invoke_never_forks (fuel : nat) (st : State) targets trace :
  invoke (workflow svc) fuel st <> Forked targets trace.
Proof.
  unfold invoke. rewrite route_start.
  destruct (router_travel_evaluator svc 0 st) as [a|]; [|discriminate].
  destruct (String.eqb a "TRAVEL"); [apply run_never_forks|].
  destruct (String.eqb a "NOT_TRAVEL"); discriminate.
Qed.

(** ** The claims about the run *)



(** C3.  When the text of the summary carries a marker naming [t], the only
    stage the run can go to next is [t], and only when [t] is one of
    [legal_targets]; for such a [t] it does go there, and for any other [t]
    the lookup in the router's dict fails and the run is aborted, so the
    named stage is not entered again. *)
Theorem regeneration_only_to_legal_targets (tick : nat) (st : State)
  (v : option SummaryValue) (text t : string) :
  generate_summary svc tick (summary_input st) = Ok v ->
  content_of v = Some text ->
  Re.search (unicode_word svc) text = Some t ->
  (forall next st', step (workflow svc) tick "summary_agent" st = Goto next st'
      -> next = t /\ t ∈ legal_targets) /\
  (t ∈ legal_targets ->
      step (workflow svc) tick "summary_agent" st
      = Goto t (set_summary st v)) /\
  (t ∉ legal_targets ->
      step (workflow svc) tick "summary_agent" st = Throw (KeyError t)).
Proof.
  intros Hv Ht Hs.
  assert (Hend : t <> END).
  { intros ->. exact (search_not_END _ _ Hs). }
  destruct (decide (t ∈ legal_targets)) as [Hin|Hout].
  - rewrite (step_summary_agent_regenerate _ _ _ _ _ Hv Ht Hs Hin).
    split; [|split]; [|reflexivity|contradiction].
    intros next st' [= <- _]. auto.
  - rewrite (step_summary_agent _ _ _ _ Hv Ht), Hs.
    rewrite (summary_path_map_missing _ Hout Hend).
    split; [|split]; [discriminate|contradiction|reflexivity].
Qed.

(** C4, as amended.  The summary stage reads its text in this order: a marker
    first, its stage being the [goto] of the stage's command, otherwise
    [END], with or without the word "final".  A marker for a stage of
    [legal_targets], the attractions stage among them, makes that stage the
    next one to run; a text without marker ends the run, and is no error. *)
Theorem summary_resolution (tick : nat) (st : State) (v : option SummaryValue)
  (text : string) :
  generate_summary svc tick (summary_input st) = Ok v ->
  content_of v = Some text ->
  node_summary_agent svc tick st
    = Ok {| goto := default END (Re.search (unicode_word svc) text);
            update := set_summary st v |} /\
  (forall t,
      Re.search (unicode_word svc) text = Some t -> t ∈ legal_targets ->
      step (workflow svc) tick "summary_agent" st
      = Goto t (set_summary st v)) /\
  (Re.search (unicode_word svc) text = Some "attractions_agent" ->
      step (workflow svc) tick "summary_agent" st
      = Goto "attractions_agent" (set_summary st v)) /\
  (Re.search (unicode_word svc) text = None ->
      step (workflow svc) tick "summary_agent" st
      = Stop (set_summary st v)).
Proof.
  intros Hv Ht. split; [|split; [|split]].
  - exact (node_summary_agent_text _ _ _ _ Hv Ht).
  - intros t Hs Hin.
    exact (step_summary_agent_regenerate _ _ _ _ _ Hv Ht Hs Hin).
  - intros Hs.
    apply (step_summary_agent_regenerate _ _ _ _ _ Hv Ht Hs).
    unfold legal_targets. rewrite !elem_of_cons. auto.
  - intros Hs. rewrite (step_summary_agent _ _ _ _ Hv Ht), Hs. reflexivity.
Qed.

(** C5.  When the travel evaluator answers anything but ["TRAVEL"] or
    ["NOT_TRAVEL"], the run is aborted with the [ValueError] of the gate and
    no stage has been entered. *)
Theorem invalid_label_aborts (fuel : nat) (st : State) (m : Message)
  (r : string) :
  last (messages st) = Some m ->
  travel_evaluator_invoke svc 0 (content m) = Ok r ->
  r <> "TRAVEL" -> r <> "NOT_TRAVEL" ->
  invoke (workflow svc) fuel st
  = Aborted (ValueError ("Invalid travel evaluator output: " ++ r)%string) [].
Proof.
  intros Hm Hr H1 H2. unfold invoke.
  rewrite route_start, (router_travel_evaluator_answer _ _ _ _ Hm Hr).
  destruct (String.eqb_spec r "TRAVEL") as [->|_]; [contradiction|].
  destruct (String.eqb_spec r "NOT_TRAVEL") as [->|_]; [contradiction|].
  reflexivity.
Qed.

(** C6.  When the travel evaluator answers ["NOT_TRAVEL"], the run ends at
    once: no stage is entered, and the final state is the initial one, so
    every field that was unset still is. *)
Theorem out_of_scope_ends_run (fuel : nat) (st : State) (m : Message) :
  last (messages st) = Some m ->
  travel_evaluator_invoke svc 0 (content m) = Ok "NOT_TRAVEL" ->
  post_gate_unset st ->
  exists st',
    invoke (workflow svc) fuel st = Finished st' [] /\
    st' = st /\ post_gate_unset st'.
Proof.
  intros Hm Hr Hu. exists st. split; [|split; [reflexivity|exact Hu]].
  unfold invoke.
  rewrite route_start, (router_travel_evaluator_answer _ _ _ _ Hm Hr).
  reflexivity.
Qed.

(** C7.  When the gate lets the request through and the query analyzer
    raises, the run is aborted with that exception; the extraction stage is
    the only stage that was entered. *)
Theorem extraction_failure_is_fatal (fuel : nat) (st : State) (m : Message)
  (e : exn) :
  last (messages st) = Some m ->
  travel_evaluator_invoke svc 0 (content m) = Ok "TRAVEL" ->
  query_analyzer_analyze svc 1 (content m) = Raise e ->
  invoke (workflow svc) (S fuel) st = Aborted e ["query_analyzer"].
Proof.
  intros Hm Hr He.
  rewrite invoke_travel
    by (rewrite (router_travel_evaluator_answer _ _ _ _ Hm Hr); reflexivity).
  apply run_throw. rewrite step_query_analyzer. unfold last_message.
  rewrite Hm, He. reflexivity.
Qed.


(** C9.  Whatever stage runs in whatever state, the state it leaves differs
    from the one it found in fields owned by that stage only; the gate leaves
    the state as it is.  As [owner] gives a field at most one stage, each
    field has a single writer. *)
Theorem single_writer (tick : nat) (current : string) (st : State) :
  match step (workflow svc) tick current st with
  | Stop st' | Goto _ st' | Fanout _ st' => frame current st st'
  | Throw _ => True
  end /\
  match route (workflow svc) START [] tick st with
  | Stop st' | Goto _ st' | Fanout _ st' => st' = st
  | Throw _ => True
  end.
Proof.
  split.
  - destruct (decide (current ∈ linear_chain)) as [Hin|Hout].
    + unfold linear_chain in Hin. rewrite !elem_of_cons in Hin.
      destruct Hin as [->|[->|[->|[->|[->|[->|[->|Hin]]]]]]];
        [| | | | | | |inversion Hin].
      * rewrite step_query_analyzer.
        destruct (last_message st) as [m|]; [|exact I].
        destruct (query_analyzer_analyze svc tick (content m)); [|exact I].
        apply frame_merge_analysis.
      * rewrite step_hotel_agent.
        destruct (hotel_agent_invoke svc tick st) as [raw|]; [|exact I].
        destruct (parse_hotels svc raw) as [hs|e]; [apply frame_set_hotels|].
        destruct (hotel_except e); [apply frame_set_hotels|exact I].
      * rewrite step_weather_agent.
        destruct (weather_agent_invoke svc tick (messages st)); [|exact I].
        apply frame_set_weather.
      * rewrite step_attractions_agent.
        destruct (attractions_agent_invoke svc tick st); [|exact I].
        apply frame_set_attractions.
      * rewrite step_calculator_agent.
        destruct (calculator_agent_invoke svc tick st); [|exact I].
        apply frame_set_calculator_result.
      * rewrite step_itinerary_agent.
        destruct (itinerary_builder_build svc tick st); [|exact I].
        apply frame_set_itinerary.
      * destruct (generate_summary svc tick (summary_input st)) as [v|e]
          eqn:Hv; [|rewrite (step_summary_agent_raises _ _ _ Hv); exact I].
        destruct (content_of v) as [text|] eqn:Ht;
          [|rewrite (step_summary_agent_no_text _ _ _ Hv Ht); exact I].
        rewrite (step_summary_agent _ _ _ _ Hv Ht).
        destruct (Re.search (unicode_word svc) text) as [t|];
          [|apply frame_set_summary].
        destruct (summary_path_map !! t); [|exact I].
        destruct (bool_decide (t = END)); apply frame_set_summary.
    + rewrite (step_unknown _ _ _ Hout). exact I.
  - rewrite route_start.
    destruct (router_travel_evaluator svc tick st) as [a|]; [|exact I].
    destruct (String.eqb a "TRAVEL"); [reflexivity|].
    destruct (String.eqb a "NOT_TRAVEL"); [reflexivity|exact I].
Qed.

(** C10.  When the output of the hotel agent fails to decode with a JSON
    decode error, a validation error or a type error, the hotel stage sets
    [hotels] to the empty list, leaves every other field as it was, and names
    the weather stage as the next one; whatever else the collaborators could
    have answered, a hotel stage that returns names the same next stage and
    leaves the same values in all fields but [hotels]. *)
Theorem hotel_failure_frame (tick : nat) (st : State) (raw : string)
  (e : exn) :
  hotel_agent_invoke svc tick st = Ok raw ->
  parse_hotels svc raw = Raise e ->
  e ∈ [JSONDecodeError; ValidationError; TypeError] ->
  node_hotel_agent svc tick st
    = Ok {| goto := "weather_agent"; update := set_hotels st (Some []) |} /\
  hotels (set_hotels st (Some [])) = Some [] /\
  (forall f, f <> F_hotels -> field_eq f st (set_hotels st (Some []))) /\
  (forall (svc' : Services Float TripPlan) c',
      node_hotel_agent svc' tick st = Ok c' ->
      goto c' = "weather_agent" /\
      forall f, f <> F_hotels ->
                field_eq f (set_hotels st (Some [])) (update c')).
Proof.
  intros Hraw Hparse He.
  assert (Hcaught : hotel_except e = true).
  { rewrite !elem_of_cons in He.
    destruct He as [->|[->|[->|He]]]; [| | |inversion He]; reflexivity. }
  split; [|split; [reflexivity|split]].
  - unfold node_hotel_agent. rewrite Hraw.
    change (mbind ?k (Ok raw)) with (k raw). cbv beta.
    rewrite Hparse, Hcaught. reflexivity.
  - intros f Hf. destruct f; try reflexivity. contradiction.
  - intros svc' c'. unfold node_hotel_agent.
    destruct (hotel_agent_invoke svc' tick st) as [raw'|]; [|discriminate].
    change (mbind ?k (Ok raw')) with (k raw'). cbv beta.
    assert (Hset : forall hs f, f <> F_hotels ->
              field_eq f (set_hotels st (Some [])) (set_hotels st hs)).
    { intros hs f Hf. destruct f; try reflexivity. contradiction. }
    destruct (parse_hotels svc' raw') as [hs|e'].
    + intros [= <-]. split; [reflexivity|apply Hset].
    + destruct (hotel_except e'); [|discriminate].
      intros [= <-]. split; [reflexivity|apply Hset].
Qed.

End Properties.

(** ** The stand-ins at work *)

Example search_finds_marker :
  Re.search Stub.latin1 "Try again. regenerate:attractions_agent please"
  = Some "attractions_agent".
Proof. reflexivity. Qed.

Example search_is_greedy :
  Re.search Stub.latin1 "regenerate:hotel_agent_agent_x"
  = Some "hotel_agent_agent".
Proof. reflexivity. Qed.

Example search_wants_a_name :
  Re.search Stub.latin1 "regenerate:_agent, this is final" = None.
Proof. reflexivity. Qed.

Example search_retries_further_right :
  Re.search Stub.latin1 "regenerate:x, then regenerate:calculator_agent."
  = Some "calculator_agent".
Proof. reflexivity. Qed.

(** Letters outside ASCII are word characters: the name is read with them,
    and the first marker of the text is the one that counts.  With a database
    that knows no letter outside ASCII the same texts read otherwise. *)
Example search_reads_letters_outside_ascii :
  Re.search Stub.latin1 "regenerate:café_agent" = Some "café_agent" /\
  Re.search Stub.latin1
    "regenerate:é_agent, or else regenerate:attractions_agent"
  = Some "é_agent" /\
  Re.search (fun _ => false) "regenerate:café_agent" = None /\
  Re.search (fun _ => false)
    "regenerate:é_agent, or else regenerate:attractions_agent"
  = Some "attractions_agent".
Proof. repeat split. Qed.

(** The request of the source's [__main__] block, answered by stand-ins that
    return one hotel, a forecast, attractions and a budget: one pass through
    the chain, with every field set at the end. *)
Example paris_run :
  trace_of (app_invoke (workflow Stub.happy) recursion_limit Stub.initial)
    = linear_chain /\
  (hotels <$>
     final_state
       (app_invoke (workflow Stub.happy) recursion_limit Stub.initial))
    = Some (Some [Stub.lutetia]) /\
  (itinerary <$>
     final_state
       (app_invoke (workflow Stub.happy) recursion_limit Stub.initial))
    = Some (Some ["Louvre"; "Orsay"; "Seine"]) /\
  (destination <$>
     final_state
       (app_invoke (workflow Stub.happy) recursion_limit Stub.initial))
    = Some (Some "Paris").
Proof. repeat split. Qed.

(** The same request when the hotel list does not decode. *)
Example paris_run_without_hotels :
  trace_of
    (app_invoke (workflow Stub.malformed_hotels) recursion_limit Stub.initial)
    = linear_chain /\
  (hotels <$>
     final_state
       (app_invoke (workflow Stub.malformed_hotels) recursion_limit
          Stub.initial))
    = Some (Some []).
Proof. repeat split. Qed.

(** A run of seven stages returns under a limit of eight; under a limit of
    seven the seven stages are executed and the run is given up. *)
Example paris_run_at_the_limit :
  trace_of (app_invoke (workflow Stub.happy) 8 Stub.initial) = linear_chain /\
  is_Some (final_state (app_invoke (workflow Stub.happy) 8 Stub.initial)) /\
  app_invoke (workflow Stub.happy) 7 Stub.initial
  = Aborted GraphRecursionError linear_chain.
Proof. split; [reflexivity|]. split; [eexists|]; reflexivity. Qed.





Lemma attractions_is_legal : "attractions_agent" ∈ legal_targets.
Proof. unfold legal_targets. rewrite !elem_of_cons. auto. Qed.

Lemma hotel_is_not_legal : "hotel_agent" ∉ legal_targets.
Proof.
  unfold legal_targets. rewrite !not_elem_of_cons.
  repeat split; try discriminate. apply not_elem_of_nil.
Qed.

Lemma caught_when_decoding :
  JSONDecodeError ∈ [JSONDecodeError; ValidationError; TypeError].
Proof. rewrite !elem_of_cons. auto. Qed.

(** *** C1 *)



(** *** C2 *)



(** *** C3 *)

(** A marker for the attractions stage, which the router's dict knows, one
    for the hotel stage, which it does not know, and one for a name with a
    letter outside ASCII. *)
Lemma regeneration_only_to_legal_targets_witness :
  step (workflow (Stub.regenerating "attractions_agent")) 7 "summary_agent"
    Stub.initial
  = Goto "attractions_agent"
      (set_summary Stub.initial
         (Some (SummaryDict
                  {[ "summary" :=
                       Str "Too expensive. regenerate:attractions_agent" ]})))
  /\
  step (workflow (Stub.regenerating "hotel_agent")) 7 "summary_agent"
    Stub.initial
  = Throw (KeyError "hotel_agent") /\
  (forall next st',
      step (workflow (Stub.regenerating "hotel_agent")) 7 "summary_agent"
        Stub.initial = Goto next st' ->
      next = "hotel_agent" /\ "hotel_agent" ∈ legal_targets) /\
  step
    (workflow
       (Stub.regenerating "é_agent, or else regenerate:attractions_agent"))
    7 "summary_agent" Stub.initial
  = Throw (KeyError "é_agent").
Proof.
  split; [|split; [|split]].
  - apply (regeneration_only_to_legal_targets
             (Stub.regenerating "attractions_agent") 7 Stub.initial
             (Some (SummaryDict
                      {[ "summary" :=
                           Str "Too expensive. regenerate:attractions_agent"
                      ]}))
             "Too expensive. regenerate:attractions_agent"
             "attractions_agent" eq_refl eq_refl eq_refl).
    exact attractions_is_legal.
  - apply (regeneration_only_to_legal_targets
             (Stub.regenerating "hotel_agent") 7 Stub.initial
             (Some (SummaryDict
                      {[ "summary" :=
                           Str "Too expensive. regenerate:hotel_agent" ]}))
             "Too expensive. regenerate:hotel_agent"
             "hotel_agent" eq_refl eq_refl eq_refl).
    exact hotel_is_not_legal.
  - apply (regeneration_only_to_legal_targets
             (Stub.regenerating "hotel_agent") 7 Stub.initial
             (Some (SummaryDict
                      {[ "summary" :=
                           Str "Too expensive. regenerate:hotel_agent" ]}))
             "Too expensive. regenerate:hotel_agent"
             "hotel_agent" eq_refl eq_refl eq_refl).
  - apply (regeneration_only_to_legal_targets
             (Stub.regenerating
                "é_agent, or else regenerate:attractions_agent")
             7 Stub.initial
             (Some (SummaryDict
                      {[ "summary" :=
                           Str ("Too expensive. regenerate:" ++
                                "é_agent, or else regenerate:attractions_agent")
                      ]}))
             ("Too expensive. regenerate:" ++
              "é_agent, or else regenerate:attractions_agent")%string
             "é_agent" eq_refl eq_refl eq_refl).
    unfold legal_targets. rewrite !not_elem_of_cons.
    repeat split; try discriminate. apply not_elem_of_nil.
Defined.

(** *** C4 *)

Lemma summary_resolution_witness :
  step (workflow (Stub.regenerating "attractions_agent")) 7 "summary_agent"
    Stub.initial
  = Goto "attractions_agent"
      (set_summary Stub.initial
         (Some (SummaryDict
                  {[ "summary" :=
                       Str "Too expensive. regenerate:attractions_agent" ]})))
  /\
  step (workflow Stub.happy) 7 "summary_agent" Stub.initial
  = Stop (set_summary Stub.initial
            (Some (SummaryDict
                     {[ "summary" :=
                          Str "A fine trip. This is the final plan." ]}))).
Proof.
  split.
  - destruct (summary_resolution (Stub.regenerating "attractions_agent") 7
                Stub.initial
                (Some (SummaryDict
                         {[ "summary" :=
                              Str "Too expensive. regenerate:attractions_agent"
                         ]}))
                "Too expensive. regenerate:attractions_agent"
                eq_refl eq_refl) as (_ & _ & H & _).
    apply H. reflexivity.
  - destruct (summary_resolution Stub.happy 7 Stub.initial
                (Some (SummaryDict
                         {[ "summary" :=
                              Str "A fine trip. This is the final plan." ]}))
                "A fine trip. This is the final plan."
                eq_refl eq_refl) as (_ & _ & _ & H).
    apply H. reflexivity.
Defined.

(** The summary names the hotel stage, which is a stage of the graph but not
    a key of the router's dict: the stage that runs next is not the hotel
    stage, the run is aborted. *)
Lemma marker_for_hotel_stage_aborts :
  Re.search Stub.latin1 "Too expensive. regenerate:hotel_agent"
  = Some "hotel_agent" /\
  "hotel_agent" ∈ linear_chain /\
  step (workflow (Stub.regenerating "hotel_agent")) 7 "summary_agent"
    Stub.initial
  = Throw (KeyError "hotel_agent") /\
  invoke (workflow (Stub.regenerating "hotel_agent")) 20 Stub.initial
  = Aborted (KeyError "hotel_agent") linear_chain /\
  app_invoke (workflow (Stub.regenerating "hotel_agent")) recursion_limit
    Stub.initial
  = Aborted (KeyError "hotel_agent") linear_chain.
Proof.
  split; [reflexivity|]. split; [|repeat split].
  unfold linear_chain. rewrite !elem_of_cons. auto.
Qed.

(** *** C5 *)

Lemma invalid_label_aborts_witness :
  invoke (workflow Stub.mute_gate) 20 Stub.initial
  = Aborted (ValueError "Invalid travel evaluator output: ") [].
Proof.
  apply (invalid_label_aborts Stub.mute_gate 20 Stub.initial Stub.request "");
    [reflexivity|reflexivity|discriminate|discriminate].
Defined.

(** *** C6 *)

Lemma out_of_scope_ends_run_witness :
  exists st',
    invoke (workflow Stub.off_topic) 20 Stub.initial = Finished st' [] /\
    st' = Stub.initial /\ post_gate_unset st'.
Proof.
  apply (out_of_scope_ends_run Stub.off_topic 20 Stub.initial Stub.request);
    [reflexivity|reflexivity|].
  unfold post_gate_unset. repeat split.
Defined.

(** *** C7 *)

Lemma extraction_failure_is_fatal_witness :
  invoke (workflow Stub.no_analysis) 20 Stub.initial
  = Aborted ValidationError ["query_analyzer"].
Proof.
  apply (extraction_failure_is_fatal Stub.no_analysis 19 Stub.initial
           Stub.request ValidationError);
    reflexivity.
Defined.

(** *** C8 *)



(** *** C10 *)

Lemma hotel_failure_frame_witness :
  node_hotel_agent Stub.malformed_hotels 2 Stub.initial
    = Ok {| goto := "weather_agent";
            update := set_hotels Stub.initial (Some []) |} /\
  hotels (set_hotels Stub.initial (Some [])) = Some [] /\
  (forall f, f <> F_hotels ->
             field_eq f Stub.initial (set_hotels Stub.initial (Some []))) /\
  (forall (svc' : Services Z (list string)) c',
      node_hotel_agent svc' 2 Stub.initial = Ok c' ->
      goto c' = "weather_agent" /\
      forall f, f <> F_hotels ->
                field_eq f (set_hotels Stub.initial (Some [])) (update c')).
Proof.
  apply (hotel_failure_frame Stub.malformed_hotels 2 Stub.initial "[...]"
           JSONDecodeError eq_refl eq_refl caught_when_decoding).
Defined.

(** * Further properties *)

(** ** Completeness of the marker search *)

Lemma prefix_append (p x : string) : String.prefix p (p ++ x)%string = true.
Proof.
  induction p as [|a p IH]; [destruct x; reflexivity|].
  rewrite append_cons. cbn [String.prefix].
  destruct (ascii_dec a a); [exact IH|contradiction].
Qed.

Lemma length_nonempty (w : string) : w <> "" -> 1 <= String.length w.
Proof. destruct w; [contradiction|cbn; lia]. Qed.

Lemma backtrack_complete (s : string) (k j : nat) :
  1 <= j <= k -> String.prefix "_agent" (Re.drop j s) = true ->
  is_Some (Re.backtrack s k).
Proof.
  induction k as [|k IH]; intros Hj Hp; [lia|]. cbn [Re.backtrack].
  destruct (String.prefix "_agent" (Re.drop (S k) s)) eqn:E; [eauto|].
  apply IH; [|exact Hp].
  destruct (decide (j = S k)) as [->|]; [congruence|lia].
Qed.

Lemma match_at_complete (alnum : N -> bool) (w rest : string) :
  w <> "" -> Re.all_word alnum w = true ->
  is_Some (Re.match_at alnum ("regenerate:" ++ w ++ "_agent" ++ rest)%string).
Proof.
  intros Hw Hall. unfold Re.match_at.
  rewrite prefix_append.
  change (Re.drop 11 ("regenerate:" ++ w ++ "_agent" ++ rest)%string)
    with (w ++ "_agent" ++ rest)%string.
  apply (backtrack_complete _ _ (String.length w)).
  - split; [apply length_nonempty, Hw|apply word_run_append, Hall].
  - rewrite drop_append. apply prefix_append.
Qed.

Lemma search_complete (alnum : N -> bool) (pre w rest : string) :
  w <> "" -> Re.all_word alnum w = true ->
  is_Some
    (Re.search alnum (pre ++ "regenerate:" ++ w ++ "_agent" ++ rest)%string).
Proof.
  intros Hw Hall. pose proof (match_at_complete alnum w rest Hw Hall) as Hm.
  induction pre as [|c pre IH].
  - change ("" ++ ?x)%string with x.
    destruct ("regenerate:" ++ w ++ "_agent" ++ rest)%string eqn:E;
      cbn [Re.search]; destruct Hm as [g ->]; eauto.
  - rewrite append_cons. cbn [Re.search].
    destruct (Re.match_at alnum (String c _)); [eauto|exact IH].
Qed.

(** X1.  Whatever the Unicode database says of the characters above ASCII,
    [re.search] with the pattern of the summary stage returns group 1 of an
    occurrence of the pattern in the text, and it finds something in every
    text that holds [regenerate:], a non-empty run of word characters and
    [_agent] in a row. *)
Theorem marker_recognition (alnum : N -> bool) (text : string) :
  (forall g, Re.search alnum text = Some g ->
     exists pre w rest,
       text = (pre ++ "regenerate:" ++ w ++ "_agent" ++ rest)%string /\
       g = (w ++ "_agent")%string /\ w <> "" /\
       Re.all_word alnum w = true) /\
  (is_Some (Re.search alnum text) <-> has_marker alnum text).
Proof.
  split; [intros g Hg; exact (search_sound _ _ _ Hg)|]. split.
  - intros [g Hg]. destruct (search_sound _ _ _ Hg) as (pre & w & rest & H).
    exists pre, w, rest. tauto.
  - intros (pre & w & rest & -> & Hw & Hall).
    exact (search_complete alnum pre w rest Hw Hall).
Qed.

Section Coverage.

Context {Float TripPlan : Type} (svc : Services Float TripPlan).

Local Abbreviation State := (WorkflowState Float TripPlan).

(** ** Steps as moves *)

Lemma step_goto_hop (tick : nat) (current next : string) (st st' : State) :
  step (workflow svc) tick current st = Goto next st' ->
  hop svc tick current st (Some next) st'.
Proof.
  destruct (decide (current ∈ linear_chain)) as [Hin|Hout];
    [|rewrite (step_unknown svc _ _ _ Hout); discriminate].
  unfold linear_chain in Hin. rewrite !elem_of_cons in Hin.
  destruct Hin as [->|[->|[->|[->|[->|[->|[->|Hin]]]]]]];
    [| | | | | | |inversion Hin].
  - rewrite step_query_analyzer. unfold last_message.
    destruct (last (messages st)) as [m|] eqn:Hm; [|discriminate].
    destruct (query_analyzer_analyze svc tick (content m)) as [r|] eqn:Hr;
      [|discriminate].
    intros [= <- <-]. exact (hop_query_analyzer svc tick st m r Hm Hr).
  - rewrite step_hotel_agent.
    destruct (hotel_agent_invoke svc tick st) as [raw|] eqn:Hraw;
      [|discriminate].
    assert (Hhop : (forall e, parse_hotels svc raw = Raise e ->
                              hotel_except e = true) ->
                   hop svc tick "hotel_agent" st (Some "weather_agent")
                     (set_hotels st (Some (decoded_hotels svc raw))))
      by exact (hop_hotel_agent svc tick st raw Hraw).
    unfold decoded_hotels in Hhop.
    destruct (parse_hotels svc raw) as [hs|e] eqn:Hp.
    + intros [= <- <-]. apply Hhop. discriminate.
    + destruct (hotel_except e) eqn:He; [|discriminate].
      intros [= <- <-]. apply Hhop. intros e' [= <-]. exact He.
  - rewrite step_weather_agent.
    destruct (weather_agent_invoke svc tick (messages st)) as [w|] eqn:Hw;
      [|discriminate].
    intros [= <- <-]. exact (hop_weather_agent svc tick st w Hw).
  - rewrite step_attractions_agent.
    destruct (attractions_agent_invoke svc tick st) as [a|] eqn:Ha;
      [|discriminate].
    intros [= <- <-]. exact (hop_attractions_agent svc tick st a Ha).
  - rewrite step_calculator_agent.
    destruct (calculator_agent_invoke svc tick st) as [c|] eqn:Hc;
      [|discriminate].
    intros [= <- <-]. exact (hop_calculator_agent svc tick st c Hc).
  - rewrite step_itinerary_agent.
    destruct (itinerary_builder_build svc tick st) as [p|] eqn:Hp;
      [|discriminate].
    intros [= <- <-]. exact (hop_itinerary_agent svc tick st p Hp).
  - destruct (generate_summary svc tick (summary_input st)) as [v|e] eqn:Hv;
      [|rewrite (step_summary_agent_raises svc _ _ _ Hv); discriminate].
    destruct (content_of v) as [text|] eqn:Ht;
      [|rewrite (step_summary_agent_no_text svc _ _ _ Hv Ht); discriminate].
    rewrite (step_summary_agent svc _ _ _ _ Hv Ht).
    destruct (Re.search (unicode_word svc) text) as [t|] eqn:Hs;
      [|discriminate].
    destruct (summary_path_map !! t) as [t'|] eqn:Hl; [|discriminate].
    apply summary_path_map_range in Hl as [_ [Hin| ->]].
    + rewrite bool_decide_eq_false_2
        by (apply legal_target_not_END, Hin).
      intros [= <- <-].
      exact (hop_regenerate svc tick st v text t Hv Ht Hs Hin).
    + rewrite bool_decide_eq_true_2 by reflexivity. discriminate.
Qed.

Lemma step_stop_hop (tick : nat) (current : string) (st st' : State) :
  step (workflow svc) tick current st = Stop st' ->
  hop svc tick current st None st'.
Proof.
  destruct (decide (current ∈ linear_chain)) as [Hin|Hout];
    [|rewrite (step_unknown svc _ _ _ Hout); discriminate].
  unfold linear_chain in Hin. rewrite !elem_of_cons in Hin.
  destruct Hin as [->|[->|[->|[->|[->|[->|[->|Hin]]]]]]];
    [| | | | | | |inversion Hin].
  - rewrite step_query_analyzer.
    destruct (last_message st) as [m|]; [|discriminate].
    destruct (query_analyzer_analyze svc tick (content m)); discriminate.
  - rewrite step_hotel_agent.
    destruct (hotel_agent_invoke svc tick st) as [raw|]; [|discriminate].
    destruct (parse_hotels svc raw) as [hs|e]; [discriminate|].
    destruct (hotel_except e); discriminate.
  - rewrite step_weather_agent.
    destruct (weather_agent_invoke svc tick (messages st)); discriminate.
  - rewrite step_attractions_agent.
    destruct (attractions_agent_invoke svc tick st); discriminate.
  - rewrite step_calculator_agent.
    destruct (calculator_agent_invoke svc tick st); discriminate.
  - rewrite step_itinerary_agent.
    destruct (itinerary_builder_build svc tick st); discriminate.
  - destruct (generate_summary svc tick (summary_input st)) as [v|e] eqn:Hv;
      [|rewrite (step_summary_agent_raises svc _ _ _ Hv); discriminate].
    destruct (content_of v) as [text|] eqn:Ht;
      [|rewrite (step_summary_agent_no_text svc _ _ _ Hv Ht); discriminate].
    rewrite (step_summary_agent svc _ _ _ _ Hv Ht).
    destruct (Re.search (unicode_word svc) text) as [t|] eqn:Hs.
    + destruct (summary_path_map !! t) as [t'|] eqn:Hl; [|discriminate].
      apply summary_path_map_range in Hl as [_ [Hin| ->]].
      * rewrite bool_decide_eq_false_2
          by (apply legal_target_not_END, Hin). discriminate.
      * destruct (search_not_END _ _ Hs).
    + intros [= <-]. exact (hop_end svc tick st v text Hv Ht Hs).
Qed.

(** A property kept by every move holds all along a run. *)
Lemma run_invariant
  (P : nat -> string -> State -> list string -> Prop)
  (Q : State -> list string -> Prop) (A : list string -> Prop) :
  (forall tick current st trace next st',
      P tick current st trace -> hop svc tick current st (Some next) st' ->
      P (S tick) next st' (trace ++ [current])) ->
  (forall tick current st trace st',
      P tick current st trace -> hop svc tick current st None st' ->
      Q st' (trace ++ [current])) ->
  (forall tick current st trace,
      P tick current st trace -> A (trace ++ [current])) ->
  forall fuel tick current st trace,
    P tick current st trace ->
    match run (workflow svc) fuel tick current st trace with
    | Finished st' t => Q st' t
    | Running next st' t => P (fuel + tick) next st' t
    | Aborted _ t | Forked _ t => A t
    end.
Proof.
  intros Hgoto Hstop Hfail.
  induction fuel as [|fuel IH]; intros tick current st trace HP;
    [exact HP|].
  cbn [run].
  destruct (step (workflow svc) tick current st) as [st'|next st'| |] eqn:E;
    cbn [continue].
  - exact (Hstop _ _ _ _ _ HP (step_stop_hop _ _ _ _ E)).
  - specialize (IH (S tick) next st' (trace ++ [current])
                  (Hgoto _ _ _ _ _ _ HP (step_goto_hop _ _ _ _ _ E))).
    replace (S fuel + tick) with (fuel + S tick) by lia. exact IH.
  - exact (Hfail _ _ _ _ HP).
  - exact (Hfail _ _ _ _ HP).
Qed.

(** The gate's router returns one of the two labels or raises. *)
Lemma router_travel_evaluator_range (tick : nat) (st : State) (a : string) :
  router_travel_evaluator svc tick st = Ok a ->
  a = "TRAVEL" \/ a = "NOT_TRAVEL".
Proof.
  unfold router_travel_evaluator.
  destruct (last_message st) as [m|]; [|discriminate].
  change (mbind ?k (Ok m)) with (k m). cbv beta.
  destruct (travel_evaluator_invoke svc tick (content m)) as [r|];
    [|discriminate].
  change (mbind ?k (Ok r)) with (k r). cbv beta.
  unfold TravelEvaluationResult.
  destruct (String.eqb_spec r "TRAVEL") as [->|_];
    [intros [= <-]; auto|].
  destruct (String.eqb_spec r "NOT_TRAVEL") as [->|_];
    [intros [= <-]; auto|discriminate].
Qed.

Lemma invoke_cases (fuel : nat) (st : State) :
  (exists e, router_travel_evaluator svc 0 st = Raise e /\
             invoke (workflow svc) fuel st = Aborted e []) \/
  (router_travel_evaluator svc 0 st = Ok "NOT_TRAVEL" /\
   invoke (workflow svc) fuel st = Finished st []) \/
  (router_travel_evaluator svc 0 st = Ok "TRAVEL" /\
   invoke (workflow svc) fuel st
   = run (workflow svc) fuel 1 "query_analyzer" st []).
Proof.
  unfold invoke. rewrite route_start.
  destruct (router_travel_evaluator svc 0 st) as [a|e] eqn:E.
  - destruct (router_travel_evaluator_range _ _ _ E) as [-> | ->]; auto.
  - left. exists e. auto.
Qed.


(** ** The summary stage and its router *)

(** X2.  When the summary has a text, the summary stage stores the summary
    and names [END] exactly when the text holds no marker, whatever it says
    about "final"; a text without marker ends the run, and a name other than
    [END] is the one [re.search] read in the text. *)
Theorem summary_ends_without_marker (tick : nat) (st : State)
  (v : option SummaryValue) (text : string) :
  generate_summary svc tick (summary_input st) = Ok v ->
  content_of v = Some text ->
  exists c,
    node_summary_agent svc tick st = Ok c /\
    update c = set_summary st v /\
    (goto c = END <-> ~ has_marker (unicode_word svc) text) /\
    (goto c <> END -> Re.search (unicode_word svc) text = Some (goto c)) /\
    (~ has_marker (unicode_word svc) text ->
     step (workflow svc) tick "summary_agent" st
     = Stop (set_summary st v)).
Proof.
  intros Hv Ht.
  exists {| goto := default END (Re.search (unicode_word svc) text);
            update := set_summary st v |}.
  split; [exact (node_summary_agent_text svc _ _ _ _ Hv Ht)|].
  split; [reflexivity|]. cbn [goto].
  destruct (Re.search (unicode_word svc) text) as [t|] eqn:Hs; cbn [default].
  - assert (Hm : has_marker (unicode_word svc) text).
    { destruct (search_sound _ _ _ Hs) as (pre & w & rest & H).
      exists pre, w, rest. tauto. }
    assert (Hend : t <> END) by (intros ->; exact (search_not_END _ _ Hs)).
    split; [|split]; [split; intros; contradiction|reflexivity|].
    intros Hno. contradiction.
  - assert (Hno : ~ has_marker (unicode_word svc) text).
    { intros (pre & w & rest & -> & Hw & Hall).
      destruct (search_complete _ pre w rest Hw Hall) as [g Hg].
      congruence. }
    split; [|split]; [split; auto|intros H; contradiction|].
    intros _. rewrite (step_summary_agent svc _ _ _ _ Hv Ht), Hs.
    reflexivity.
Qed.

(** X3.  The router registered on the summary stage reads the stored summary
    the way the stage read it: on the state the stage returns, its answer is
    the [goto] of the stage's command. *)
Theorem router_agrees_with_stage (tick tick' : nat) (st : State)
  (c : Command Float TripPlan) :
  node_summary_agent svc tick st = Ok c ->
  summary_supervisor_router svc tick' (update c) = Ok (goto c).
Proof.
  intros Hc.
  destruct (generate_summary svc tick (summary_input st)) as [v|e] eqn:Hv.
  - destruct (content_of v) as [text|] eqn:Ht.
    + rewrite (node_summary_agent_text svc _ _ _ _ Hv Ht) in Hc.
      injection Hc as <-. cbn [goto update].
      apply summary_supervisor_router_text. exact Ht.
    + unfold node_summary_agent in Hc. rewrite Hv in Hc.
      change (mbind ?k (Ok v)) with (k v) in Hc. cbv beta zeta in Hc.
      rewrite Ht in Hc. discriminate.
  - unfold node_summary_agent in Hc. rewrite Hv in Hc. discriminate.
Qed.

(** X4.  When the summary generator returns, the summary stage raises in
    one case only: the summary is a dict that holds no text under
    ['summary'], because the key is missing, for which [dict.get] gives
    [None], or because what is there is not a [str].  [re.search] then
    raises [TypeError], and the step throws it.  A summary that is [None] is
    read as the text ["None"], which ends the run. *)
Theorem summary_stage_failure (tick : nat) (st : State)
  (v : option SummaryValue) :
  generate_summary svc tick (summary_input st) = Ok v ->
  (forall e,
      node_summary_agent svc tick st = Raise e <->
      e = TypeError /\
      exists d, v = Some (SummaryDict d) /\
                (d !! "summary" = None \/ d !! "summary" = Some NotStr)) /\
  ((exists d, v = Some (SummaryDict d) /\
              (d !! "summary" = None \/ d !! "summary" = Some NotStr)) ->
   step (workflow svc) tick "summary_agent" st = Throw TypeError) /\
  (v = None ->
   step (workflow svc) tick "summary_agent" st = Stop (set_summary st None)).
Proof.
  intros Hv.
  assert (Hdict : (exists d, v = Some (SummaryDict d) /\
                     (d !! "summary" = None \/ d !! "summary" = Some NotStr))
                  <-> content_of v = None).
  { split.
    - intros (d & -> & [Hd|Hd]); cbn; rewrite Hd; reflexivity.
    - destruct v as [[d|s]|]; cbn; [|discriminate|discriminate].
      destruct (d !! "summary") as [[text|]|] eqn:Hd; [discriminate| |];
        intros _; exists d; auto. }
  split; [|split].
  - intros e. rewrite Hdict. destruct (content_of v) as [text|] eqn:Ht.
    + rewrite (node_summary_agent_text svc _ _ _ _ Hv Ht). split.
      * discriminate.
      * intros [_ H]. discriminate.
    + assert (Hn : node_summary_agent svc tick st = Raise TypeError).
      { unfold node_summary_agent. rewrite Hv.
        change (mbind ?k (Ok ?x)) with (k x). cbv beta zeta.
        rewrite Ht. reflexivity. }
      rewrite Hn. split.
      * intros [= <-]. auto.
      * intros [-> _]. reflexivity.
  - intros Hd. apply Hdict in Hd.
    exact (step_summary_agent_no_text svc _ _ _ Hv Hd).
  - intros ->. rewrite (step_summary_agent svc _ _ None "None" Hv eq_refl).
    reflexivity.
Qed.

(** ** The hotel stage *)

Lemma hotel_stage_goto (tick : nat) (st : State) (c : Command Float TripPlan) :
  node_hotel_agent svc tick st = Ok c -> goto c = "weather_agent".
Proof.
  unfold node_hotel_agent.
  destruct (hotel_agent_invoke svc tick st) as [raw|]; [|discriminate].
  change (mbind ?k (Ok raw)) with (k raw). cbv beta.
  destruct (parse_hotels svc raw) as [hs|e]; [intros [= <-]; reflexivity|].
  destruct (hotel_except e); [|discriminate]. intros [= <-]. reflexivity.
Qed.

(** X5.  Whenever the hotel stage returns, it names the weather stage and
    has set [hotels] to a list, the decoded one or the empty one: the field
    is never left unset. *)
Theorem hotel_stage_sets_a_list (tick : nat) (st : State)
  (c : Command Float TripPlan) :
  node_hotel_agent svc tick st = Ok c ->
  goto c = "weather_agent" /\
  is_Some (hotels (update c)) /\
  exists raw,
    hotel_agent_invoke svc tick st = Ok raw /\
    update c = set_hotels st (Some (decoded_hotels svc raw)).
Proof.
  unfold node_hotel_agent, decoded_hotels.
  destruct (hotel_agent_invoke svc tick st) as [raw|]; [|discriminate].
  change (mbind ?k (Ok raw)) with (k raw). cbv beta.
  destruct (parse_hotels svc raw) as [hs|e] eqn:Hp.
  - intros [= <-]. split; [reflexivity|]. split; [cbn; eauto|].
    exists raw. split; [reflexivity|]. cbn. rewrite Hp. reflexivity.
  - destruct (hotel_except e); [|discriminate].
    intros [= <-]. split; [reflexivity|]. split; [cbn; eauto|].
    exists raw. split; [reflexivity|]. cbn. rewrite Hp. reflexivity.
Qed.

(** X6.  The hotel stage handles three exceptions of the decoding and no
    other: any other exception raised while decoding leaves the stage and
    aborts the step. *)
Theorem unhandled_decoding_error_aborts (tick : nat) (st : State)
  (raw : string) (e : exn) :
  hotel_agent_invoke svc tick st = Ok raw ->
  parse_hotels svc raw = Raise e ->
  e ∉ [JSONDecodeError; ValidationError; TypeError] ->
  node_hotel_agent svc tick st = Raise e /\
  step (workflow svc) tick "hotel_agent" st = Throw e.
Proof.
  intros Hraw Hp He.
  assert (Hno : hotel_except e = false).
  { rewrite !not_elem_of_cons in He. destruct He as (H1 & H2 & H3 & _).
    destruct e; try reflexivity; contradiction. }
  split.
  - unfold node_hotel_agent. rewrite Hraw.
    change (mbind ?k (Ok raw)) with (k raw). cbv beta.
    rewrite Hp, Hno. reflexivity.
  - rewrite step_hotel_agent, Hraw, Hp, Hno. reflexivity.
Qed.

(** ** The gate *)

(** X7.  A state without messages cannot be read by the gate: the run is
    aborted with [IndexError] before the travel evaluator is asked, and no
    stage is entered. *)
Theorem empty_conversation_aborts (fuel : nat) (st : State) :
  messages st = [] ->
  router_travel_evaluator svc 0 st = Raise IndexError /\
  invoke (workflow svc) fuel st = Aborted IndexError [].
Proof.
  intros Hm.
  assert (H : router_travel_evaluator svc 0 st = Raise IndexError).
  { unfold router_travel_evaluator, last_message. rewrite Hm. reflexivity. }
  split; [exact H|]. unfold invoke. rewrite route_start, H. reflexivity.
Qed.

(** X8.  An exception raised by the travel evaluator itself is not turned
    into the gate's [ValueError]: it aborts the run as it is, before any
    stage is entered. *)
Theorem evaluator_failure_aborts (fuel : nat) (st : State) (m : Message)
  (e : exn) :
  last (messages st) = Some m ->
  travel_evaluator_invoke svc 0 (content m) = Raise e ->
  invoke (workflow svc) fuel st = Aborted e [].
Proof.
  intros Hm He. unfold invoke. rewrite route_start.
  unfold router_travel_evaluator, last_message. rewrite Hm.
  change (mbind ?k (Ok m)) with (k m). cbv beta. rewrite He. reflexivity.
Qed.

(** ** The shape of a run *)

(** X9.  For each of the six stages before the summary stage, the [goto] of
    the command it returns is the stage of the one fixed edge registered for
    it; together with the agreement of the summary stage and its router this
    means that no step asks for two stages and no run forks. *)
Theorem goto_agrees_with_edges (fuel tick : nat) (current : string)
  (st : State) :
  (forall fn c,
      current <> "summary_agent" ->
      nodes (workflow svc) !! current = Some fn -> fn tick st = Ok c ->
      static_targets (edges (workflow svc)) current = [goto c]) /\
  (forall targets st',
      step (workflow svc) tick current st <> Fanout targets st') /\
  (forall targets trace,
      invoke (workflow svc) fuel st <> Forked targets trace).
Proof.
  split; [|split].
  - intros fn c Hns Hfn Hc.
    destruct (decide (current ∈ linear_chain)) as [Hin|Hout];
      [|rewrite (nodes_unknown svc _ Hout) in Hfn; discriminate].
    unfold linear_chain in Hin. rewrite !elem_of_cons in Hin.
    destruct Hin as [->|[->|[->|[->|[->|[->|[->|Hin]]]]]]];
      [| | | | | |contradiction|inversion Hin].
    + rewrite nodes_query_analyzer in Hfn. injection Hfn as <-.
      unfold node_query_analyzer in Hc.
      destruct (last_message st) as [m|]; [|discriminate].
      change (mbind ?k (Ok m)) with (k m) in Hc. cbv beta in Hc.
      destruct (query_analyzer_analyze svc tick (content m));
        [|discriminate].
      injection Hc as <-. reflexivity.
    + rewrite nodes_hotel_agent in Hfn. injection Hfn as <-.
      rewrite (hotel_stage_goto _ _ _ Hc). reflexivity.
    + rewrite nodes_weather_agent in Hfn. injection Hfn as <-.
      unfold node_weather_agent in Hc.
      destruct (weather_agent_invoke svc tick (messages st)); [|discriminate].
      injection Hc as <-. reflexivity.
    + rewrite nodes_attractions_agent in Hfn. injection Hfn as <-.
      unfold node_attractions_agent in Hc.
      destruct (attractions_agent_invoke svc tick st); [|discriminate].
      injection Hc as <-. reflexivity.
    + rewrite nodes_calculator_agent in Hfn. injection Hfn as <-.
      unfold node_calculator_agent in Hc.
      destruct (calculator_agent_invoke svc tick st); [|discriminate].
      injection Hc as <-. reflexivity.
    + rewrite nodes_itinerary_agent in Hfn. injection Hfn as <-.
      unfold node_itinerary_agent in Hc.
      destruct (itinerary_builder_build svc tick st); [|discriminate].
      injection Hc as <-. reflexivity.
  - intros targets st' H.
    pose proof (step_sequential svc tick current st) as Hseq.
    rewrite H in Hseq. exact Hseq.
  - intros targets trace. apply invoke_never_forks.
Qed.


Lemma position_query_analyzer : position "query_analyzer" = 0.
Proof. reflexivity. Qed.
Lemma position_hotel_agent : position "hotel_agent" = 1.
Proof. reflexivity. Qed.
Lemma position_weather_agent : position "weather_agent" = 2.
Proof. reflexivity. Qed.
Lemma position_attractions_agent : position "attractions_agent" = 3.
Proof. reflexivity. Qed.
Lemma position_calculator_agent : position "calculator_agent" = 4.
Proof. reflexivity. Qed.
Lemma position_itinerary_agent : position "itinerary_agent" = 5.
Proof. reflexivity. Qed.
Lemma position_summary_agent : position "summary_agent" = 6.
Proof. reflexivity. Qed.

Local Ltac positions :=
  rewrite ?position_query_analyzer, ?position_hotel_agent,
    ?position_weather_agent, ?position_attractions_agent,
    ?position_calculator_agent, ?position_itinerary_agent,
    ?position_summary_agent in *.

Local Ltac legal_cases H :=
  unfold legal_targets in H; rewrite !elem_of_cons in H;
  destruct H as [->|[->|[->|H]]]; [| | |inversion H].

Local Ltac early_cases H :=
  unfold early_stages, linear_chain in H; cbn [take] in H;
  rewrite !elem_of_cons in H;
  destruct H as [->|[->|[->|H]]]; [| | |inversion H].

Lemma entries_snoc (x n : string) (t : list string) :
  entries x (t ++ [n]) = entries x t + (if bool_decide (n = x) then 1 else 0).
Proof.
  rewrite entries_app. f_equal. unfold entries.
  case_bool_decide as H.
  - rewrite filter_cons_True by exact H. reflexivity.
  - rewrite filter_cons_False by exact H. reflexivity.
Qed.

Local Ltac decide_names :=
  repeat first
    [ rewrite bool_decide_eq_true_2 in * by reflexivity
    | rewrite bool_decide_eq_false_2 in * by discriminate ].

(** Where a move leads: a stage of the chain. *)
Lemma hop_next_in_chain (tick : nat) (current next : string) (st st' : State) :
  hop svc tick current st (Some next) st' -> next ∈ linear_chain.
Proof.
  intros H. inversion H; subst;
    try (unfold linear_chain; rewrite !elem_of_cons; auto 10).
  match goal with
  | Hin : _ ∈ legal_targets |- _ =>
      apply legal_target_in_chain in Hin; unfold linear_chain in *;
      cbn [tail] in Hin; rewrite !elem_of_cons in *; tauto
  end.
Qed.

(** X10.  Whatever the collaborators answer, a run enters registered stages
    only, and the first stage it enters is the extraction stage: a marker
    naming something else never makes the run enter it. *)
Theorem only_registered_stages_run (fuel : nat) (st : State) :
  Forall (fun n => n ∈ linear_chain)
    (trace_of (invoke (workflow svc) fuel st)) /\
  (forall n, head (trace_of (invoke (workflow svc) fuel st)) = Some n ->
             n = "query_analyzer").
Proof.
  set (T := fun t : list string =>
              Forall (fun n => n ∈ linear_chain) t /\
              (forall n, head t = Some n -> n = "query_analyzer")).
  change (T (trace_of (invoke (workflow svc) fuel st))).
  assert (T0 : T []) by (split; [constructor|discriminate]).
  destruct (invoke_cases fuel st) as [(e & _ & ->)|[(_ & ->)|(_ & ->)]];
    [exact T0|exact T0|].
  pose proof (run_invariant
                (fun _ current _ trace =>
                   current ∈ linear_chain /\ T (trace ++ [current]))
                (fun _ t => T t) T) as Hinv.
  cbv beta in Hinv.
  assert (Hsnoc : forall t n, T t -> n ∈ linear_chain -> t <> [] ->
                              T (t ++ [n])).
  { intros t n [Hall Hhead] Hn Hne. split.
    - apply Forall_app. split; [exact Hall|]. constructor; [exact Hn|constructor].
    - destruct t as [|a t]; [contradiction|]. exact Hhead. }
  assert (Hcut : forall t n, T (t ++ [n]) -> T t).
  { intros t n [Hall Hhead]. apply Forall_app in Hall as [Hall _].
    split; [exact Hall|]. intros x Hx. apply Hhead.
    destruct t; [discriminate|exact Hx]. }
  specialize (Hinv
    ltac:(intros tick current s trace next s' [Hin HT] Hhop; split;
          [exact (hop_next_in_chain _ _ _ _ _ Hhop)
          |apply Hsnoc;
           [exact HT|exact (hop_next_in_chain _ _ _ _ _ Hhop)
           |destruct trace; discriminate]])
    ltac:(intros tick current s trace s' [Hin HT] _; exact HT)
    ltac:(intros tick current s trace [Hin HT]; exact HT)
    fuel 1 "query_analyzer" st []).
  assert (HP0 : "query_analyzer" ∈ linear_chain /\
                T ([] ++ ["query_analyzer"])).
  { split; [unfold linear_chain; rewrite !elem_of_cons; auto|].
    split; [repeat constructor; unfold linear_chain;
            rewrite !elem_of_cons; auto|].
    intros n [= <-]. reflexivity. }
  specialize (Hinv HP0).
  destruct (run (workflow svc) fuel 1 "query_analyzer" st []);
    cbn [trace_of]; try exact Hinv.
  destruct Hinv as [_ HT]. exact (Hcut _ _ HT).
Qed.


(** X11.  The extraction, hotel and weather stages are entered at most once
    in a run: no regeneration leads back to them. *)
Theorem early_stages_run_once (fuel : nat) (st : State) (x : string) :
  x ∈ early_stages ->
  entries x (trace_of (invoke (workflow svc) fuel st)) <= 1.
Proof.
  revert x.
  set (T := fun t : list string =>
              forall x, x ∈ early_stages -> entries x t <= 1).
  change (T (trace_of (invoke (workflow svc) fuel st))).
  assert (T0 : T []) by (intros x _; cbn; lia).
  destruct (invoke_cases fuel st) as [(e & _ & ->)|[(_ & ->)|(_ & ->)]];
    [exact T0|exact T0|].
  pose proof (run_invariant
                (fun _ current _ trace =>
                   forall x, x ∈ early_stages ->
                     entries x (trace ++ [current]) <= 1 /\
                     (position current < position x ->
                      entries x (trace ++ [current]) = 0))
                (fun _ t => T t) T) as Hinv.
  cbv beta in Hinv.
  specialize (Hinv
    ltac:(intros tick current s trace next s' HP Hhop x Hx;
          destruct (HP x Hx) as [H1 H2];
          rewrite (entries_snoc x next);
          inversion Hhop; subst;
          try match goal with
              | Hin : _ ∈ legal_targets |- _ => legal_cases Hin
              end;
          early_cases Hx; positions; decide_names; cbv beta iota; lia)
    ltac:(intros tick current s trace s' HP _ x Hx; apply (HP x Hx))
    ltac:(intros tick current s trace HP x Hx; apply (HP x Hx))
    fuel 1 "query_analyzer" st []).
  assert (HP0 : forall x, x ∈ early_stages ->
                  entries x ([] ++ ["query_analyzer"]) <= 1 /\
                  (position "query_analyzer" < position x ->
                   entries x ([] ++ ["query_analyzer"]) = 0)).
  { intros x Hx.
    early_cases Hx; positions;
      (split; [vm_compute; lia|intros H; first [reflexivity|lia]]). }
  specialize (Hinv HP0).
  destruct (run (workflow svc) fuel 1 "query_analyzer" st []);
    cbn [trace_of]; try exact Hinv.
  intros x Hx. destruct (Hinv x Hx) as [H1 _].
  rewrite entries_snoc in H1. lia.
Qed.

(** X13.  A run that ends after entering a stage has first gone through the
    whole chain in order, and the last stage it entered is the summary
    stage: [END] is reached from nowhere else. *)
Theorem finished_run_passes_the_chain (fuel : nat) (st st' : State)
  (trace : list string) :
  invoke (workflow svc) fuel st = Finished st' trace ->
  trace = [] \/
  ((exists rest, trace = linear_chain ++ rest) /\
   last trace = Some "summary_agent").
Proof.
  destruct (invoke_cases fuel st) as [(e & _ & ->)|[(_ & ->)|(_ & ->)]];
    [discriminate|intros [= <- <-]; auto|].
  intros Hrun. right.
  pose proof (run_invariant
                (fun _ current _ tr =>
                   tr = take (position current) linear_chain \/
                   exists rest, tr = linear_chain ++ rest)
                (fun _ t => (exists rest, t = linear_chain ++ rest) /\
                            last t = Some "summary_agent")
                (fun _ => True)) as Hinv.
  cbv beta in Hinv.
  specialize (Hinv
    ltac:(intros tick current s tr next s' HP Hhop;
          inversion Hhop; subst;
          try match goal with
              | Hin : _ ∈ legal_targets |- _ => legal_cases Hin
              end;
          positions;
          (destruct HP as [-> | [rest ->]];
           [first [left; reflexivity | right; exists []; reflexivity]
           |right; eexists; rewrite <- app_assoc; reflexivity]))
    ltac:(intros tick current s tr s' HP Hhop;
          inversion Hhop; subst; positions;
          (split; [|apply last_snoc]);
          (destruct HP as [-> | [rest ->]];
           [exists []; reflexivity
           |eexists; rewrite <- app_assoc; reflexivity]))
    ltac:(intros; exact I)
    fuel 1 "query_analyzer" st []).
  rewrite Hrun in Hinv. apply Hinv. left. reflexivity.
Qed.

(** X14.  No stage assigns [messages]: the state a run has reached, ended or
    not, holds the messages of the initial state. *)
Theorem messages_never_change (fuel : nat) (st st' : State) :
  state_of (invoke (workflow svc) fuel st) = Some st' ->
  messages st' = messages st.
Proof.
  destruct (invoke_cases fuel st) as [(e & _ & ->)|[(_ & ->)|(_ & ->)]];
    [discriminate|intros [= <-]; reflexivity|].
  pose proof (run_invariant
                (fun _ _ s _ => messages s = messages st)
                (fun s _ => messages s = messages st)
                (fun _ => True)) as Hinv.
  cbv beta in Hinv.
  specialize (Hinv
    ltac:(intros tick current s tr next s' HP Hhop;
          inversion Hhop; subst; exact HP)
    ltac:(intros tick current s tr s' HP Hhop;
          inversion Hhop; subst; exact HP)
    ltac:(intros; exact I)
    fuel 1 "query_analyzer" st [] eq_refl).
  destruct (run (workflow svc) fuel 1 "query_analyzer" st []);
    cbn [state_of]; try discriminate; intros [= <-]; exact Hinv.
Qed.


Lemma late_hop_keeps_first_pass (tick : nat) (current : string)
  (next : option string) (s s' : State) :
  current ∈ late_stages ->
  hop svc tick current s next s' ->
  (forall n, next = Some n -> n ∈ late_stages) /\
  forall f, f ∈ first_pass_fields -> field_eq f s s'.
Proof.
  intros Hin Hhop.
  unfold late_stages, linear_chain in Hin. cbn [drop] in Hin.
  rewrite !elem_of_cons in Hin.
  assert (Hlate : forall n, n ∈ late_stages <->
            n = "attractions_agent" \/ n = "calculator_agent" \/
            n = "itinerary_agent" \/ n = "summary_agent").
  { intros n. unfold late_stages, linear_chain. cbn [drop].
    rewrite !elem_of_cons, elem_of_nil. tauto. }
  assert (Hfields : forall f, f ∈ first_pass_fields ->
            owner f <> Some "attractions_agent" /\
            owner f <> Some "calculator_agent" /\
            owner f <> Some "itinerary_agent" /\
            owner f <> Some "summary_agent").
  { intros f Hf. unfold first_pass_fields in Hf. rewrite !elem_of_cons in Hf.
    repeat (destruct Hf as [->|Hf]; [repeat split; discriminate|]).
    inversion Hf. }
  inversion Hhop; subst;
    try (destruct Hin as [Hin|[Hin|[Hin|[Hin|Hin]]]];
         solve [discriminate Hin|inversion Hin]).
  - split; [intros n [= <-]; apply Hlate; auto|].
    intros f Hf. apply frame_set_attractions, (Hfields f Hf).
  - split; [intros n [= <-]; apply Hlate; auto|].
    intros f Hf. apply frame_set_calculator_result, (Hfields f Hf).
  - split; [intros n [= <-]; apply Hlate; auto|].
    intros f Hf. apply frame_set_itinerary, (Hfields f Hf).
  - split.
    + intros n [= <-]. apply Hlate.
      match goal with
      | H : _ ∈ legal_targets |- _ => legal_cases H; auto
      end.
    + intros f Hf. apply frame_set_summary, (Hfields f Hf).
  - split; [discriminate|].
    intros f Hf. apply frame_set_summary, (Hfields f Hf).
Qed.

Lemma field_eq_trans (f : Field) (a b c : State) :
  field_eq f a b -> field_eq f b c -> field_eq f a c.
Proof. destruct f; cbn; congruence. Qed.

(** The first-pass fields of [s] are those of [s0]. *)
Lemma late_run_keeps_first_pass (s0 : State) :
  forall fuel tick current (s : State) trace,
    current ∈ late_stages ->
    (forall f, f ∈ first_pass_fields -> field_eq f s0 s) ->
    match run (workflow svc) fuel tick current s trace with
    | Finished s' _ => forall f, f ∈ first_pass_fields -> field_eq f s0 s'
    | _ => True
    end.
Proof.
  intros fuel tick current s trace Hin Heq.
  pose proof (run_invariant
                (fun _ cur x _ =>
                   cur ∈ late_stages /\
                   forall f, f ∈ first_pass_fields -> field_eq f s0 x)
                (fun x _ => forall f, f ∈ first_pass_fields ->
                                      field_eq f s0 x)
                (fun _ => True)) as Hinv.
  cbv beta in Hinv.
  specialize (Hinv
    ltac:(intros t cur x tr next x' [Hl Hx] Hhop;
          destruct (late_hop_keeps_first_pass _ _ _ _ _ Hl Hhop) as [Hn Hf];
          split; [apply Hn; reflexivity|];
          intros f Hfin;
          exact (field_eq_trans _ _ _ _ (Hx f Hfin) (Hf f Hfin)))
    ltac:(intros t cur x tr x' [Hl Hx] Hhop f Hfin;
          destruct (late_hop_keeps_first_pass _ _ _ _ _ Hl Hhop) as [_ Hf];
          exact (field_eq_trans _ _ _ _ (Hx f Hfin) (Hf f Hfin)))
    ltac:(intros; exact I)
    fuel tick current s trace (conj Hin Heq)).
  destruct (run (workflow svc) fuel tick current s trace); try exact I.
  exact Hinv.
Qed.

Lemma run_unfold (g : StateGraph Float TripPlan) (fuel tick : nat)
  (current : string) (s : State) (trace : list string) :
  run g (S fuel) tick current s trace
  = continue
      (fun next s' => run g fuel (S tick) next s' (trace ++ [current]))
      (trace ++ [current]) (step g tick current s).
Proof. reflexivity. Qed.

(** A run that ends has made the moves of the first three stages. *)
Lemma first_three_hops (fuel : nat) (st st' : State) (trace : list string) :
  run (workflow svc) fuel 1 "query_analyzer" st [] = Finished st' trace ->
  exists m r raw w fuel',
    last (messages st) = Some m /\
    query_analyzer_analyze svc 1 (content m) = Ok r /\
    hotel_agent_invoke svc 2 (merge_analysis st r) = Ok raw /\
    weather_agent_invoke svc 3 (messages st) = Ok w /\
    run (workflow svc) fuel' 4 "attractions_agent"
      (set_weather
         (set_hotels (merge_analysis st r) (Some (decoded_hotels svc raw)))
         (Some w))
      ["query_analyzer"; "hotel_agent"; "weather_agent"]
    = Finished st' trace.
Proof.
  intros Hrun.
  destruct fuel as [|fuel]; [discriminate|]. rewrite run_unfold in Hrun.
  destruct (step (workflow svc) 1 "query_analyzer" st) as [|n1 s1| |] eqn:E1;
    cbn [continue] in Hrun; try discriminate;
    [apply step_stop_hop in E1; inversion E1|].
  apply step_goto_hop in E1. inversion E1; subst. clear E1.
  destruct fuel as [|fuel]; [discriminate|]. rewrite run_unfold in Hrun.
  destruct (step (workflow svc) 2 "hotel_agent" (merge_analysis st r))
    as [|n2 s2| |] eqn:E2;
    cbn [continue] in Hrun; try discriminate;
    [apply step_stop_hop in E2; inversion E2|].
  apply step_goto_hop in E2. inversion E2; subst. clear E2.
  destruct fuel as [|fuel]; [discriminate|]. rewrite run_unfold in Hrun.
  match type of Hrun with
  | context [step _ 3 "weather_agent" ?s] => set (s2 := s) in *
  end.
  destruct (step (workflow svc) 3 "weather_agent" s2)
    as [|n3 s3| |] eqn:E3;
    cbn [continue] in Hrun; try discriminate;
    [apply step_stop_hop in E3; inversion E3|].
  apply step_goto_hop in E3. inversion E3; subst. clear E3.
  exists m, r, raw, w, fuel.
  repeat match goal with
         | |- _ /\ _ => split; [assumption|]
         end.
  exact Hrun.
Qed.

(** X15.  The final state of a run that ended after entering a stage holds
    the trip parameters, the hotels and the weather of the first pass: the
    analysis of the last message (execution 1), the decoded answer of the
    hotel agent (execution 2) and the forecast the weather agent gave for the
    initial messages (execution 3).  Regeneration changes none of them. *)
Theorem first_pass_survives (fuel : nat) (st st' : State)
  (trace : list string) :
  invoke (workflow svc) fuel st = Finished st' trace ->
  trace <> [] ->
  exists m r raw w,
    last (messages st) = Some m /\
    query_analyzer_analyze svc 1 (content m) = Ok r /\
    hotel_agent_invoke svc 2 (merge_analysis st r) = Ok raw /\
    weather_agent_invoke svc 3 (messages st) = Ok w /\
    holds_analysis st' r /\
    hotels st' = Some (decoded_hotels svc raw) /\
    weather st' = Some w.
Proof.
  destruct (invoke_cases fuel st) as [(e & _ & ->)|[(_ & ->)|(_ & ->)]];
    [discriminate|intros [= <- <-]; contradiction|].
  intros Hrun _.
  destruct (first_three_hops _ _ _ _ Hrun)
    as (m & r & raw & w & fuel' & Hm & Hr & Hraw & Hw & Hlate).
  exists m, r, raw, w.
  split; [exact Hm|]. split; [exact Hr|]. split; [exact Hraw|].
  split; [exact Hw|].
  set (s3 := set_weather
               (set_hotels (merge_analysis st r)
                  (Some (decoded_hotels svc raw))) (Some w)) in *.
  assert (Hin : "attractions_agent" ∈ late_stages).
  { unfold late_stages, linear_chain. cbn [drop]. rewrite !elem_of_cons. auto. }
  pose proof (late_run_keeps_first_pass s3 fuel' 4 "attractions_agent" s3
                ["query_analyzer"; "hotel_agent"; "weather_agent"] Hin
                ltac:(intros f _; destruct f; reflexivity)) as Hf.
  rewrite Hlate in Hf.
  assert (Hfp : forall f, In f first_pass_fields -> f ∈ first_pass_fields)
    by (intros f; apply list_elem_of_In).
  pose proof (Hf F_destination ltac:(apply Hfp; cbn; tauto)) as K1.
  pose proof (Hf F_budget ltac:(apply Hfp; cbn; tauto)) as K2.
  pose proof (Hf F_native_currency ltac:(apply Hfp; cbn; tauto)) as K3.
  pose proof (Hf F_days ltac:(apply Hfp; cbn; tauto)) as K4.
  pose proof (Hf F_group_size ltac:(apply Hfp; cbn; tauto)) as K5.
  pose proof (Hf F_activity_preferences ltac:(apply Hfp; cbn; tauto)) as K6.
  pose proof (Hf F_accommodation_type ltac:(apply Hfp; cbn; tauto)) as K7.
  pose proof (Hf F_dietary_restrictions ltac:(apply Hfp; cbn; tauto)) as K8.
  pose proof (Hf F_transportation_preferences ltac:(apply Hfp; cbn; tauto))
    as K9.
  pose proof (Hf F_hotels ltac:(apply Hfp; cbn; tauto)) as K10.
  pose proof (Hf F_weather ltac:(apply Hfp; cbn; tauto)) as K11.
  unfold field_eq in K1, K2, K3, K4, K5, K6, K7, K8, K9, K10, K11.
  unfold holds_analysis.
  rewrite <- K1, <- K2, <- K3, <- K4, <- K5, <- K6, <- K7, <- K8, <- K9,
    <- K10, <- K11.
  repeat split.
Qed.



End Coverage.

(** ** The further properties on the stand-ins *)

Lemma summary_ends_without_marker_witness :
  exists c,
    node_summary_agent Stub.happy 7 Stub.initial = Ok c /\
    update c
    = set_summary Stub.initial
        (Some (SummaryDict
                 {[ "summary" :=
                      Str "A fine trip. This is the final plan." ]}))
    /\
    (goto c = END <->
     ~ has_marker Stub.latin1 "A fine trip. This is the final plan.") /\
    (goto c <> END ->
     Re.search Stub.latin1 "A fine trip. This is the final plan."
     = Some (goto c)) /\
    (~ has_marker Stub.latin1 "A fine trip. This is the final plan." ->
     step (workflow Stub.happy) 7 "summary_agent" Stub.initial
     = Stop (set_summary Stub.initial
               (Some (SummaryDict
                        {[ "summary" :=
                             Str "A fine trip. This is the final plan." ]})))).
Proof.
  apply (summary_ends_without_marker Stub.happy 7 Stub.initial
           (Some (SummaryDict
                    {[ "summary" :=
                         Str "A fine trip. This is the final plan." ]}))
           "A fine trip. This is the final plan.");
    reflexivity.
Defined.

Lemma router_agrees_with_stage_witness :
  summary_supervisor_router (Stub.regenerating "calculator_agent") 0
    (set_summary Stub.initial
       (Some (SummaryDict
                {[ "summary" :=
                     Str "Too expensive. regenerate:calculator_agent" ]})))
  = Ok "calculator_agent".
Proof.
  apply (router_agrees_with_stage (Stub.regenerating "calculator_agent") 7 0
           Stub.initial
           {| goto := "calculator_agent";
              update :=
                set_summary Stub.initial
                  (Some (SummaryDict
                           {[ "summary" :=
                                Str "Too expensive. regenerate:calculator_agent"
                           ]})) |}).
  reflexivity.
Defined.

(** A dict without the key, and a dict that holds [None] under it. *)
Lemma summary_stage_failure_witness :
  node_summary_agent
    (Probe.with_summary Stub.happy (Ok (Some (SummaryDict ∅)))) 7 Stub.initial
  = Raise TypeError /\
  step
    (workflow
       (Probe.with_summary Stub.happy
          (Ok (Some (SummaryDict {[ "summary" := NotStr ]})))))
    7 "summary_agent" Stub.initial
  = Throw TypeError /\
  step (workflow (Probe.with_summary Stub.happy (Ok None))) 7 "summary_agent"
    Stub.initial
  = Stop (set_summary Stub.initial None).
Proof.
  split; [|split].
  - apply (summary_stage_failure
             (Probe.with_summary Stub.happy (Ok (Some (SummaryDict ∅)))) 7
             Stub.initial (Some (SummaryDict ∅)) eq_refl).
    split; [reflexivity|]. exists ∅. split; [reflexivity|left; reflexivity].
  - apply (summary_stage_failure
             (Probe.with_summary Stub.happy
                (Ok (Some (SummaryDict {[ "summary" := NotStr ]}))))
             7 Stub.initial (Some (SummaryDict {[ "summary" := NotStr ]}))
             eq_refl).
    exists {[ "summary" := NotStr ]}. split; [reflexivity|right; reflexivity].
  - apply (summary_stage_failure (Probe.with_summary Stub.happy (Ok None)) 7
             Stub.initial None eq_refl).
    reflexivity.
Defined.

Lemma hotel_stage_sets_a_list_witness :
  goto {| goto := "weather_agent";
          update := set_hotels Stub.initial (Some [Stub.lutetia]) |}
  = "weather_agent" /\
  is_Some (hotels (set_hotels Stub.initial (Some [Stub.lutetia]))) /\
  exists raw,
    hotel_agent_invoke Stub.happy 2 Stub.initial = Ok raw /\
    set_hotels Stub.initial (Some [Stub.lutetia])
    = set_hotels Stub.initial (Some (decoded_hotels Stub.happy raw)).
Proof.
  apply (hotel_stage_sets_a_list Stub.happy 2 Stub.initial
           {| goto := "weather_agent";
              update := set_hotels Stub.initial (Some [Stub.lutetia]) |}).
  reflexivity.
Defined.

Lemma unhandled_decoding_error_aborts_witness :
  node_hotel_agent
    (Probe.with_decoder Stub.happy (Raise (KeyError "name"))) 2 Stub.initial
  = Raise (KeyError "name") /\
  step (workflow (Probe.with_decoder Stub.happy (Raise (KeyError "name")))) 2
    "hotel_agent" Stub.initial
  = Throw (KeyError "name").
Proof.
  apply (unhandled_decoding_error_aborts
           (Probe.with_decoder Stub.happy (Raise (KeyError "name"))) 2
           Stub.initial "[...]" (KeyError "name"));
    [reflexivity|reflexivity|].
  rewrite !not_elem_of_cons. repeat split; try discriminate.
  apply not_elem_of_nil.
Defined.

Lemma empty_conversation_aborts_witness :
  router_travel_evaluator Stub.happy 0 Probe.silent = Raise IndexError /\
  invoke (workflow Stub.happy) 20 Probe.silent = Aborted IndexError [].
Proof. apply empty_conversation_aborts. reflexivity. Defined.

Lemma evaluator_failure_aborts_witness :
  invoke
    (workflow
       (Probe.with_evaluator Stub.happy (Raise (CollaboratorError "down"))))
    20 Stub.initial
  = Aborted (CollaboratorError "down") [].
Proof.
  apply (evaluator_failure_aborts
           (Probe.with_evaluator Stub.happy
              (Raise (CollaboratorError "down")))
           20 Stub.initial Stub.request);
    reflexivity.
Defined.

Lemma goto_agrees_with_edges_witness :
  static_targets (edges (workflow Stub.happy)) "weather_agent"
  = [goto {| goto := "attractions_agent";
             update := set_weather Stub.initial (Some "sunny") |}].
Proof.
  destruct (goto_agrees_with_edges Stub.happy 0 3 "weather_agent"
              Stub.initial) as [H _].
  apply (H (node_weather_agent Stub.happy)); [discriminate| |]; reflexivity.
Defined.

Lemma early_stages_run_once_witness :
  entries "hotel_agent"
    (trace_of
       (invoke (workflow (Stub.regenerating "attractions_agent")) 40
          Stub.initial))
  <= 1.
Proof.
  apply early_stages_run_once.
  unfold early_stages, linear_chain. cbn [take]. rewrite !elem_of_cons. auto.
Defined.

Lemma finished_run_passes_the_chain_witness :
  exists st' trace,
    invoke (workflow Probe.second_thoughts) 20 Stub.initial
    = Finished st' trace /\
    (trace = [] \/
     ((exists rest, trace = linear_chain ++ rest) /\
      last trace = Some "summary_agent")).
Proof.
  eexists _, _. split; [vm_compute; reflexivity|].
  eapply (finished_run_passes_the_chain Probe.second_thoughts 20 Stub.initial).
  vm_compute. reflexivity.
Defined.

Lemma messages_never_change_witness :
  exists st',
    state_of (invoke (workflow (Stub.regenerating "itinerary_agent")) 30
                Stub.initial) = Some st' /\
    messages st' = [Stub.request].
Proof.
  eexists. split; [vm_compute; reflexivity|].
  apply (messages_never_change (Stub.regenerating "itinerary_agent") 30
           Stub.initial).
  vm_compute. reflexivity.
Defined.

Lemma first_pass_survives_witness :
  exists st' trace,
    invoke (workflow Probe.second_thoughts) 20 Stub.initial
    = Finished st' trace /\
    exists m r raw w,
      last (messages Stub.initial) = Some m /\
      query_analyzer_analyze Probe.second_thoughts 1 (content m) = Ok r /\
      hotel_agent_invoke Probe.second_thoughts 2
        (merge_analysis Stub.initial r) = Ok raw /\
      weather_agent_invoke Probe.second_thoughts 3 (messages Stub.initial)
      = Ok w /\
      holds_analysis st' r /\
      hotels st' = Some (decoded_hotels Probe.second_thoughts raw) /\
      weather st' = Some w.
Proof.
  eexists _, _. split; [vm_compute; reflexivity|].
  eapply (first_pass_survives Probe.second_thoughts 20 Stub.initial).
  - vm_compute. reflexivity.
  - discriminate.
Defined.


